(** * n8n-discord-trigger: the connection manager and the trigger node

    A shallow embedding of [src/nodes/connectionManager.ts] and of the
    [trigger] method of [src/nodes/DiscordTrigger/DiscordTrigger.node.ts],
    with the properties of the session-multiplexing core proved over it.

    Conventions of the embedding.
    - A JavaScript [number] that only ever holds a counter or a timestamp is
      an integer [Z]; the counter of the connection manager stays far below
      2^53, where the arithmetic of doubles is exact.
    - A [Set<string>] is the list of its members in insertion order, without
      repetition, which is the order [Array.from] enumerates.
    - An object is the list of its own enumerable properties in creation
      order, the order of [Object.entries] for the property names that occur
      here (none is an array index).
    - Strings are strings of ASCII characters: the node ids and the property
      names of discord.js objects.
    - Calls on the shared IPC channel (node-ipc) and on the helper module are
      recorded, in program order, in a trace of effects.  [console.log] is
      not recorded. *)

From Stdlib Require Import ZArith List String Ascii Bool Lia DecimalString.
Import ListNotations.

Local Open Scope string_scope.
Local Open Scope list_scope.
Local Open Scope Z_scope.

(** ** JavaScript values *)

Module Js.

#[warnings="-register-all"]
Inductive Value : Type :=
| VUndefined
| VNull
| VBool (b : bool)
| VNum (n : Z)
| VStr (s : string)
| VObj (props : list (string * Value)).

Definition Object := list (string * Value).

(** The result of evaluating code that may throw.  The only exception the
    modelled code can raise itself is the [TypeError] of reading a property
    of [undefined] or [null]. *)
Inductive Completion (A : Type) : Type :=
| Normal (a : A)
| Throw.
Arguments Normal {A} a.
Arguments Throw {A}.

Definition bind {A B} (c : Completion A) (k : A -> Completion B) : Completion B :=
  match c with
  | Normal a => k a
  | Throw => Throw
  end.

Notation "x <- c ;; k" := (bind c (fun x => k))
  (at level 61, c at next level, right associativity).

(** [ToBoolean]: what [if (v)], [!v] and [a || b] test. *)
Definition truthy (v : Value) : bool :=
  match v with
  | VUndefined | VNull => false
  | VBool b => b
  | VNum n => negb (n =? 0)
  | VStr s => negb (s =? "")%string
  | VObj _ => true
  end.

Definition nullish (v : Value) : bool :=
  match v with
  | VUndefined | VNull => true
  | _ => false
  end.

(** Own property lookup in an object. *)
Fixpoint lookup (k : string) (o : Object) : option Value :=
  match o with
  | [] => None
  | (k', v) :: o' => if (k' =? k)%string then Some v else lookup k o'
  end.

(** [v.k].  Reading a property of [undefined] or [null] throws; a property
    an object does not have reads as [undefined], and so do, on a primitive,
    the property names the handlers read ([id], [content], [username], ...:
    none is defined on a prototype). *)
Definition get (v : Value) (k : string) : Completion Value :=
  match v with
  | VUndefined | VNull => Throw
  | VObj o => Normal (match lookup k o with Some x => x | None => VUndefined end)
  | _ => Normal VUndefined
  end.

(** [v?.k]. *)
Definition get_opt (v : Value) (k : string) : Value :=
  match get v k with
  | Normal x => x
  | Throw => VUndefined
  end.

(** [o[k] = v]: an existing property keeps its place and takes the new
    value, a new one is created last. *)
Fixpoint set_prop (k : string) (v : Value) (o : Object) : Object :=
  match o with
  | [] => [(k, v)]
  | (k', v') :: o' =>
      if (k' =? k)%string then (k', v) :: o' else (k', v') :: set_prop k v o'
  end.

(** Copying the entries [es], in order, into [o]: what [Object.fromEntries]
    does from an empty object, and what a spread [{...o, ...es}] does. *)
Definition assign (o : Object) (es : list (string * Value)) : Object :=
  fold_left (fun acc kv => set_prop (fst kv) (snd kv) acc) es o.

Definition fromEntries (es : list (string * Value)) : Object := assign [] es.

Definition keys (o : Object) : list string := map fst o.

(** The decimal numeral of an array index, for the entries of a string. *)
Definition index_key (i : nat) : string :=
  NilZero.string_of_uint (Nat.to_uint i).

Fixpoint string_entries (i : nat) (s : string) : list (string * Value) :=
  match s with
  | EmptyString => []
  | String c s' => (index_key i, VStr (String c EmptyString)) :: string_entries (S i) s'
  end.

(** The own enumerable properties a spread [...v] copies: those of an
    object, the characters of a string under their indices, nothing for the
    other values. *)
Definition own_entries (v : Value) : list (string * Value) :=
  match v with
  | VObj o => o
  | VStr s => string_entries 0 s
  | _ => []
  end.

(** [Object.entries(v)], which throws on [undefined] and [null]. *)
Definition entries (v : Value) : Completion (list (string * Value)) :=
  if nullish v then Throw else Normal (own_entries v).

(** [a === b] where [a] is a string. *)
Definition strict_eq_str (a : string) (b : Value) : bool :=
  match b with
  | VStr s => (a =? s)%string
  | _ => false
  end.

(** [c.toUpperCase()] for one ASCII character. *)
Definition toUpperCase_char (c : ascii) : ascii :=
  let n := nat_of_ascii c in
  if andb (Nat.leb 97 n) (Nat.leb n 122) then ascii_of_nat (n - 32) else c.

End Js.

(** ** The host framework and the IPC channel *)

Module Ipc.

Import Js.

(** The part of n8n's [ITriggerFunctions] the trigger reads through [this]. *)
Record TriggerFunctions : Type := {
  node_id : string;                              (* this.getNode().id *)
  node_parameters : Object;                      (* this.getNode().parameters *)
  getNodeParameter : string -> Value -> Value;   (* this.getNodeParameter(name, fallback) *)
  workflow_active : bool;                        (* this.getWorkflow().active *)
  workflow_id : string;                          (* String(this.getWorkflow().id) *)
  activation_mode : string                       (* this.getActivationMode() *)
}.

(** The nine event kinds the bot process fans out. *)
Inductive EventKind : Type :=
| MessageCreate | GuildMemberAdd | GuildMemberRemove | GuildMemberUpdate
| MessageReactionAdd | MessageReactionRemove
| RoleCreate | RoleDelete | RoleUpdate.

Definition event_name (k : EventKind) : string :=
  match k with
  | MessageCreate => "messageCreate"
  | GuildMemberAdd => "guildMemberAdd"
  | GuildMemberRemove => "guildMemberRemove"
  | GuildMemberUpdate => "guildMemberUpdate"
  | MessageReactionAdd => "messageReactionAdd"
  | MessageReactionRemove => "messageReactionRemove"
  | RoleCreate => "roleCreate"
  | RoleDelete => "roleDelete"
  | RoleUpdate => "roleUpdate"
  end.

(** A callback given to [ipc.of.bot.on]: one of the nine event handlers,
    closed over the [this] of the activation that attached it, or the
    logger of the [disconnect] event. *)
Inductive Listener : Type :=
| RouterHandler (this : TriggerFunctions) (kind : EventKind)
| DisconnectLogger.

(** The calls the modelled code makes on its collaborators.  The two
    functions of [../helper] are recorded as calls: what they do in turn is
    not part of the modelled sources.  The last constructor is no call but
    the one event of the environment a trace records: the socket of the
    channel was destroyed (the bot process went away), and is still so when
    [ipc.connectTo] is next called. *)
Inductive Effect : Type :=
| HelperConnection (credentials : Value)   (* connection(credentials) *)
| HelperCheckWorkflowStatus (baseUrl apiKey : Value) (workflowId : string)
                                           (* checkWorkflowStatus(baseUrl, apiKey, id) *)
| ConnectTo (id : string)                  (* ipc.connectTo(id, callback) *)
| Emit (event : string) (data : Value)     (* ipc.of.bot.emit(event, data) *)
| On (event : string) (l : Listener)       (* ipc.of.bot.on(event, l) *)
| Disconnect (id : string)                 (* ipc.disconnect(id) *)
| SocketDestroyed.                         (* ipc.of.bot.socket.destroyed became true *)




Definition is_teardown (e : Effect) : bool :=
  match e with Disconnect _ => true | _ => false end.

(** The client object [ipc.of.bot] along a trace: whether there is one with
    its socket up, and the calls made on it.  Listeners belong to the
    client.  [ipc.disconnect] deletes the client.  node-ipc's [connectTo]
    keeps a client whose socket is not destroyed, and otherwise installs a
    new client, which has no listener; the registry is not told. *)
Definition channel_step (st : bool * list Effect) (e : Effect) : bool * list Effect :=
  match e with
  | Disconnect _ => (false, [])
  | SocketDestroyed => (false, snd st)
  | ConnectTo _ => if fst st then (true, snd st ++ [e]) else (true, [e])
  | _ => (fst st, snd st ++ [e])
  end.

Definition channel (tr : list Effect) : bool * list Effect :=
  fold_left channel_step tr (false, []).

(** The calls made on the client that is current at the end of the trace,
    that is since the channel was last torn down or replaced. *)
Definition since_teardown (tr : list Effect) : list Effect := snd (channel tr).

End Ipc.

(** ** src/nodes/connectionManager.ts *)

Module ConnectionManager.

Import Ipc.

(** [Set<string>] *)
Definition StringSet := list string.

Definition has (x : string) (s : StringSet) : bool :=
  existsb (String.eqb x) s.

Definition add (x : string) (s : StringSet) : StringSet :=
  if has x s then s else s ++ [x].

Record t : Type := {
  connectionCount : Z;
  registeredNodes : StringSet
}.

(** [new ConnectionManager()], the exported singleton at module load. *)
Definition connectionManager : t :=
  {| connectionCount := 0; registeredNodes := [] |}.

Definition isNodeRegistered (nodeId : string) (cm : t) : bool :=
  has nodeId (registeredNodes cm).

Definition connect (nodeId : string) (cm : t) : bool * t :=
  let cm1 := {| connectionCount := connectionCount cm + 1;
                registeredNodes := registeredNodes cm |} in
  if has nodeId (registeredNodes cm1) then (false, cm1)
  else (true, {| connectionCount := connectionCount cm1;
                 registeredNodes := add nodeId (registeredNodes cm1) |}).

Definition disconnect (nodeId : string) (cm : t) : t * list Effect :=
  if connectionCount cm <=? 0 then (cm, [])
  else
    let cm1 := {| connectionCount := connectionCount cm - 1;
                  registeredNodes := registeredNodes cm |} in
    if connectionCount cm1 <=? 0 then
      ({| connectionCount := 0; registeredNodes := [] |}, [Disconnect "bot"])
    else (cm1, []).

Definition getConnectionCount (cm : t) : Z := connectionCount cm.

Definition getRegisteredNodes (cm : t) : list string := registeredNodes cm.

(** A call on the registry, and a sequence of calls run in order. *)
Inductive Call : Type :=
| CallConnect (nodeId : string)
| CallDisconnect (nodeId : string).

Definition step (cm : t) (c : Call) : t :=
  match c with
  | CallConnect n => snd (connect n cm)
  | CallDisconnect n => fst (disconnect n cm)
  end.

Definition run (calls : list Call) (cm : t) : t := fold_left step calls cm.

Definition is_connect (c : Call) : bool :=
  match c with CallConnect _ => true | CallDisconnect _ => false end.

(** The numbers of [connect] and of [disconnect] calls in a sequence. *)
Definition connects (calls : list Call) : Z :=
  Z.of_nat (List.length (filter is_connect calls)).

Definition disconnects (calls : list Call) : Z :=
  Z.of_nat (List.length (filter (fun c => negb (is_connect c)) calls)).

(** What a call adds to the difference of the two numbers. *)
Definition delta (c : Call) : Z :=
  match c with
  | CallConnect _ => 1
  | CallDisconnect _ => -1
  end.

(** The difference, summed call by call. *)
Fixpoint net (calls : list Call) : Z :=
  match calls with
  | [] => 0
  | c :: calls' => delta c + net calls'
  end.

(** The least value the difference takes on a prefix of the sequence, the
    empty prefix included. *)
Fixpoint lowest (calls : list Call) : Z :=
  match calls with
  | [] => 0
  | c :: calls' => Z.min 0 (delta c + lowest calls')
  end.

(** The specification's wording of the counter after a sequence of calls:
    the difference of the two numbers of calls, floored at 0. *)
Definition floored_difference (calls : list Call) : Z :=
  Z.max 0 (connects calls - disconnects calls).

(** The data model's range of the counter. *)
Definition count_ok (cm : t) : Prop := 0 <= connectionCount cm.

(** Identities are bound only while the channel is up, that is while the
    counter is positive. *)
Definition bound_implies_active (cm : t) : Prop :=
  registeredNodes cm <> [] -> 0 < connectionCount cm.

End ConnectionManager.

(** ** src/nodes/DiscordTrigger/DiscordTrigger.node.ts *)

Module DiscordTrigger.

Import Js Ipc.

(** *** The event handlers

    A handler takes the [this] it was closed over and the data object of the
    event, and yields the records it hands to [this.emit], each wrapped by
    n8n's [returnJsonArray] into a batch of one item. *)

(** [key.charAt(0).toUpperCase() + key.slice(1)] *)
Definition capitalize (key : string) : string :=
  match key with
  | EmptyString => EmptyString
  | String c rest => String (toUpperCase_char c) rest
  end.

Definition prefixed (prefix : string) (kv : string * Value) : string * Value :=
  ((prefix ++ capitalize (fst kv))%string, snd kv).

Definition addPrefix (obj : Value) (prefix : string) : Completion Object :=
  es <- entries obj ;;
  Normal (fromEntries (map (prefixed prefix) es)).

Definition on_messageCreate (this : TriggerFunctions) (data : Value)
  : Completion (list Value) :=
  message <- get data "message" ;;
  author <- get data "author" ;;
  guild <- get data "guild" ;;
  nodeId <- get data "nodeId" ;;
  messageReference <- get data "messageReference" ;;
  attachments <- get data "attachments" ;;
  referenceAuthor <- get data "referenceAuthor" ;;
  if strict_eq_str (node_id this) nodeId then
    _logged <- get message "id" ;;
    id <- get message "id" ;;
    content <- get message "content" ;;
    channelId <- get message "channelId" ;;
    authorId <- get author "id" ;;
    authorName <- get author "username" ;;
    timestamp <- get message "createdTimestamp" ;;
    authorIsBot <- (bot <- get author "bot" ;;
                    if truthy bot then Normal bot else get author "system") ;;
    let messageCreateOptions : Object :=
      [ ("id", id);
        ("content", content);
        ("guildId", get_opt guild "id");
        ("channelId", channelId);
        ("authorId", authorId);
        ("authorName", authorName);
        ("timestamp", timestamp);
        ("listenValue", getNodeParameter this "value" (VStr ""));
        ("authorIsBot", authorIsBot);
        ("referenceId", VNull);
        ("referenceContent", VNull);
        ("referenceAuthorId", VNull);
        ("referenceAuthorName", VNull);
        ("referenceTimestamp", VNull) ] in
    withReference <-
      (if truthy messageReference then
         referenceId <- get messageReference "id" ;;
         referenceContent <- get messageReference "content" ;;
         referenceAuthorId <- get referenceAuthor "id" ;;
         referenceAuthorName <- get referenceAuthor "username" ;;
         referenceTimestamp <- get messageReference "createdTimestamp" ;;
         Normal (set_prop "referenceTimestamp" referenceTimestamp
                (set_prop "referenceAuthorName" referenceAuthorName
                (set_prop "referenceAuthorId" referenceAuthorId
                (set_prop "referenceContent" referenceContent
                (set_prop "referenceId" referenceId messageCreateOptions)))))
       else Normal messageCreateOptions) ;;
    let withAttachments :=
      if truthy attachments
      then set_prop "attachments" attachments withReference
      else withReference in
    Normal [VObj withAttachments]
  else Normal [].

(** [guildMemberAdd] and [guildMemberRemove] *)
Definition on_guildMember (this : TriggerFunctions) (data : Value)
  : Completion (list Value) :=
  guildMember <- get data "guildMember" ;;
  guild <- get data "guild" ;;
  user <- get data "user" ;;
  nodeId <- get data "nodeId" ;;
  if strict_eq_str (node_id this) nodeId then Normal [guildMember] else Normal [].

Definition on_guildMemberUpdate (this : TriggerFunctions) (data : Value)
  : Completion (list Value) :=
  oldMember <- get data "oldMember" ;;
  newMember <- get data "newMember" ;;
  guild <- get data "guild" ;;
  nodeId <- get data "nodeId" ;;
  if strict_eq_str (node_id this) nodeId then
    fromOld <- addPrefix oldMember "old" ;;
    fromNew <- addPrefix newMember "new" ;;
    fromGuild <- addPrefix guild "guild" ;;
    let mergedGuildMemberUpdateOptions :=
      assign (assign (assign [] fromOld) fromNew) fromGuild in
    Normal [VObj mergedGuildMemberUpdateOptions]
  else Normal [].

(** [messageReactionAdd] and [messageReactionRemove] *)
Definition on_messageReaction (this : TriggerFunctions) (data : Value)
  : Completion (list Value) :=
  messageReaction <- get data "messageReaction" ;;
  message <- get data "message" ;;
  user <- get data "user" ;;
  guild <- get data "guild" ;;
  nodeId <- get data "nodeId" ;;
  if strict_eq_str (node_id this) nodeId then
    let spread := assign (assign [] (own_entries messageReaction)) (own_entries user) in
    channelId <- get message "channelId" ;;
    guildId <- get guild "id" ;;
    Normal [VObj (set_prop "guildId" guildId (set_prop "channelId" channelId spread))]
  else Normal [].

(** [roleCreate] and [roleDelete] *)
Definition on_role (this : TriggerFunctions) (data : Value)
  : Completion (list Value) :=
  role <- get data "role" ;;
  guild <- get data "guild" ;;
  nodeId <- get data "nodeId" ;;
  if strict_eq_str (node_id this) nodeId then Normal [role] else Normal [].

Definition on_roleUpdate (this : TriggerFunctions) (data : Value)
  : Completion (list Value) :=
  oldRole <- get data "oldRole" ;;
  newRole <- get data "newRole" ;;
  guild <- get data "guild" ;;
  nodeId <- get data "nodeId" ;;
  if strict_eq_str (node_id this) nodeId then
    fromOld <- addPrefix oldRole "old" ;;
    fromNew <- addPrefix newRole "new" ;;
    let mergedRoleOptions := assign (assign [] fromOld) fromNew in
    Normal [VObj mergedRoleOptions]
  else Normal [].

(** The callback [trigger] attaches for each event name. *)
Definition handler (kind : EventKind) : TriggerFunctions -> Value -> Completion (list Value) :=
  match kind with
  | MessageCreate => on_messageCreate
  | GuildMemberAdd | GuildMemberRemove => on_guildMember
  | GuildMemberUpdate => on_guildMemberUpdate
  | MessageReactionAdd | MessageReactionRemove => on_messageReaction
  | RoleCreate | RoleDelete => on_role
  | RoleUpdate => on_roleUpdate
  end.

(** The kinds in the order [trigger] attaches their handlers. *)
Definition all_kinds : list EventKind :=
  [ MessageCreate; GuildMemberAdd; GuildMemberRemove; GuildMemberUpdate;
    MessageReactionAdd; MessageReactionRemove; RoleCreate; RoleDelete; RoleUpdate ].

(** The records a handler run delivers to its client's sink. *)
Definition delivered (c : Completion (list Value)) : list Value :=
  match c with
  | Normal records => records
  | Throw => []
  end.

(** *** The trigger method *)

(** The process-wide state an activation acts on: the singleton registry and
    the calls made so far on the channel and the helper. *)
Record World : Type := {
  manager : ConnectionManager.t;
  trace : list Effect
}.

Definition initial : World :=
  {| manager := ConnectionManager.connectionManager; trace := [] |}.

Inductive TriggerResponse : Type :=
| EmptyResponse       (* {} *)
| WithCloseFunction.  (* { closeFunction } *)

(** The [parameters] object sent with the registration. *)
Definition collect_parameters (this : TriggerFunctions) : Object :=
  fold_left (fun parameters key => set_prop key (getNodeParameter this key (VStr "")) parameters)
            (keys (node_parameters this)) [].

Definition registration (this : TriggerFunctions) (credentials : Value) : Value :=
  VObj [ ("parameters", VObj (collect_parameters this));
         ("active", VBool (workflow_active this));
         ("credentials", credentials);
         ("token", get_opt credentials "token");
         ("nodeId", VStr (node_id this)) ].

Definition attach_handlers (this : TriggerFunctions) : list Effect :=
  map (fun kind => On (event_name kind) (RouterHandler this kind)) all_kinds.

(** The callback given to [ipc.connectTo]; node-ipc runs it before
    [connectTo] returns, on a new socket as on a live one. *)
Definition connected_callback (this : TriggerFunctions) (credentials : Value)
    (cm : ConnectionManager.t) : ConnectionManager.t * list Effect :=
  let currentNodeId := node_id this in
  let (isNewRegistration, cm') := ConnectionManager.connect currentNodeId cm in
  let registered := [Emit "triggerNodeRegistered" (registration this credentials)] in
  if negb isNewRegistration then (cm', registered)
  else (cm', registered ++ attach_handlers this).

(** [trigger], with [credentials] the value the awaited
    [getCredentials(...).catch((e) => e)] produced: the credentials, or the
    error it was rejected with.  The method suspends at its two [await]s
    only, before it touches the registry; the model runs one activation at
    a time. *)
Definition trigger (this : TriggerFunctions) (credentials : Value) (w : World)
  : TriggerResponse * World :=
  if negb (truthy (get_opt credentials "token")) then (EmptyResponse, w)
  else
    let (cm', in_callback) := connected_callback this credentials (manager w) in
    (WithCloseFunction,
     {| manager := cm';
        trace := trace w
                 ++ [HelperConnection credentials]
                 ++ [ConnectTo "bot"] ++ in_callback
                 ++ [On "disconnect" DisconnectLogger] |}).

(** The [closeFunction] of an activation, with [credentials] the value its
    own awaited [getCredentials] produced and [isActive] the answer of the
    helper's [checkWorkflowStatus]. *)
Definition closeFunction (this : TriggerFunctions) (credentials : Value) (isActive : bool)
    (w : World) : Completion World :=
  baseUrl <- get credentials "baseUrl" ;;
  apiKey <- get credentials "apiKey" ;;
  let currentNodeId := node_id this in
  let shouldDisconnect :=
    negb isActive || negb (activation_mode this =? "manual")%string in
  let removed :=
    [ HelperCheckWorkflowStatus baseUrl apiKey (workflow_id this);
      ConnectTo "bot";
      Emit "triggerNodeRemoved" (VObj [("nodeId", VStr currentNodeId)]) ] in
  if shouldDisconnect then
    let (cm', torn_down) := ConnectionManager.disconnect currentNodeId (manager w) in
    Normal {| manager := cm'; trace := trace w ++ removed ++ torn_down |}
  else Normal {| manager := manager w; trace := trace w ++ removed |}.

(** What one activation adds to the trace. *)
Definition activation_effects (this : TriggerFunctions) (credentials : Value) (w : World)
  : list Effect :=
  skipn (List.length (trace w)) (trace (snd (trigger this credentials w))).

(** *** Fan-out of an inbound event to the attached handlers *)

(** Every listener attached for the event's name, among the calls [tr] made
    on the live channel, runs on the data; each record is delivered to the
    sink of the client whose handler emitted it. *)
Fixpoint dispatch (tr : list Effect) (kind : EventKind) (data : Value)
  : list (string * Value) :=
  match tr with
  | [] => []
  | On ev (RouterHandler this k) :: tr' =>
      (if (ev =? event_name kind)%string
       then map (pair (node_id this)) (delivered (handler k this data))
       else [])
      ++ dispatch tr' kind data
  | _ :: tr' => dispatch tr' kind data
  end.

(** *** Vocabulary of the statements *)

(** The payload has the shape the handler of its kind relies on: the
    objects it reads properties of, or takes the entries of, are there. *)
Definition well_shaped (kind : EventKind) (data : Value) : bool :=
  let present field := negb (nullish (get_opt data field)) in
  match kind with
  | MessageCreate =>
      present "message" && present "author"
      && (negb (truthy (get_opt data "messageReference")) || present "referenceAuthor")
  | GuildMemberAdd | GuildMemberRemove | RoleCreate | RoleDelete =>
      negb (nullish data)
  | GuildMemberUpdate => present "oldMember" && present "newMember" && present "guild"
  | MessageReactionAdd | MessageReactionRemove => present "message" && present "guild"
  | RoleUpdate => present "oldRole" && present "newRole"
  end.


(** Reading a field of a list of fields in which a later field of the same
    name replaces an earlier one. *)
Definition last_field (k : string) (fields : list (string * Value)) : option Value :=
  lookup k (rev fields).

(** The data object of an event, as the bot process sends it. *)
Definition guildMemberUpdate_event (oldMember newMember guild : Value) (nodeId : string) : Value :=
  VObj [ ("oldMember", oldMember); ("newMember", newMember);
         ("guild", guild); ("nodeId", VStr nodeId) ].

Definition roleUpdate_event (oldRole newRole guild : Value) (nodeId : string) : Value :=
  VObj [ ("oldRole", oldRole); ("newRole", newRole);
         ("guild", guild); ("nodeId", VStr nodeId) ].

Definition messageCreate_event
    (message author guild messageReference attachments referenceAuthor : Value)
    (nodeId : string) : Value :=
  VObj [ ("message", message); ("author", author); ("guild", guild);
         ("nodeId", VStr nodeId); ("messageReference", messageReference);
         ("attachments", attachments); ("referenceAuthor", referenceAuthor) ].

(** A client with the given identity and no parameters. *)
Definition client (id : string) : TriggerFunctions :=
  {| node_id := id;
     node_parameters := [];
     getNodeParameter := fun _ fallback => fallback;
     workflow_active := true;
     workflow_id := "1";
     activation_mode := "trigger" |}.

End DiscordTrigger.

(** ** Sequences of calls and the listeners on the channel *)

Module Lifecycle.

Import Js Ipc DiscordTrigger.

(** The effects of a sequence of calls on the registry, in order. *)
Definition call_effects (c : ConnectionManager.Call) (cm : ConnectionManager.t) : list Effect :=
  match c with
  | ConnectionManager.CallConnect _ => []
  | ConnectionManager.CallDisconnect n => snd (ConnectionManager.disconnect n cm)
  end.

Fixpoint run_effects (calls : list ConnectionManager.Call) (cm : ConnectionManager.t)
  : list Effect :=
  match calls with
  | [] => []
  | c :: calls' => call_effects c cm ++ run_effects calls' (ConnectionManager.step cm c)
  end.

(** What the host framework does with a trigger node: it activates it, and
    later runs the [closeFunction] the activation returned.  A
    [closeFunction] that throws rejects its promise and has made no call.
    Between two such calls the environment may destroy the socket of the
    channel, which the registry does not see. *)
Inductive LifecycleCall : Type :=
| Activate (this : TriggerFunctions) (credentials : Value)
| Deactivate (this : TriggerFunctions) (credentials : Value) (isActive : bool)
| ChannelLost.

Definition lifecycle_step (w : World) (c : LifecycleCall) : World :=
  match c with
  | Activate this credentials => snd (trigger this credentials w)
  | Deactivate this credentials isActive =>
      match closeFunction this credentials isActive w with
      | Normal w' => w'
      | Throw => w
      end
  | ChannelLost => {| manager := manager w; trace := trace w ++ [SocketDestroyed] |}
  end.

Definition is_channel_lost (c : LifecycleCall) : bool :=
  match c with ChannelLost => true | _ => false end.

(** The socket is not destroyed during the sequence. *)
Definition never_lost (calls : list LifecycleCall) : Prop :=
  existsb is_channel_lost calls = false.

(** A call that neither connects the channel nor ends it. *)
Definition plain (e : Effect) : bool :=
  match e with
  | ConnectTo _ | Disconnect _ | SocketDestroyed => false
  | _ => true
  end.

Definition lifecycle (calls : list LifecycleCall) (w : World) : World :=
  fold_left lifecycle_step calls w.

(** The event handlers among the calls of a trace: event name, the [this]
    the handler is closed over, and its kind. *)
Fixpoint router_listeners (tr : list Effect) : list (string * TriggerFunctions * EventKind) :=
  match tr with
  | [] => []
  | On ev (RouterHandler this k) :: tr' => (ev, this, k) :: router_listeners tr'
  | _ :: tr' => router_listeners tr'
  end.

(** The nine handlers one activation attaches. *)
Definition handlers_of (this : TriggerFunctions) : list (string * TriggerFunctions * EventKind) :=
  map (fun k => (event_name k, this, k)) all_kinds.

(** The event handlers on the live channel. *)
Definition live_listeners (w : World) : list (string * TriggerFunctions * EventKind) :=
  router_listeners (since_teardown (trace w)).

(** What an activation with a token adds to the trace. *)
Definition activation_calls (this : TriggerFunctions) (credentials : Value) (isNew : bool)
  : list Effect :=
  [ HelperConnection credentials; ConnectTo "bot";
    Emit "triggerNodeRegistered" (registration this credentials) ]
  ++ (if isNew then attach_handlers this else [])
  ++ [On "disconnect" DisconnectLogger].

(** The invariant of the worlds: the registered nodes are listed once each,
    and the event handlers on the live channel are the nine handlers of one
    activation each of distinct registered nodes. *)
Definition one_handler_set_each (w : World) : Prop :=
  NoDup (ConnectionManager.registeredNodes (manager w))
  /\ exists clients,
       live_listeners w = flat_map handlers_of clients
       /\ NoDup (map node_id clients)
       /\ incl (map node_id clients) (ConnectionManager.registeredNodes (manager w)).

(** The invariant of the worlds whose socket was never destroyed: every
    registered node has its handlers, in the order of registration, and
    without a client no node is registered. *)
Definition every_node_has_handlers (w : World) : Prop :=
  exists clients,
    live_listeners w = flat_map handlers_of clients
    /\ map node_id clients = ConnectionManager.registeredNodes (manager w)
    /\ (fst (channel (trace w)) = false ->
        ConnectionManager.registeredNodes (manager w) = []).

(** What one attached handler delivers for an event of a kind. *)
Definition deliver_one (kind : EventKind) (data : Value)
    (l : string * TriggerFunctions * EventKind) : list (string * Value) :=
  let '(ev, this, k) := l in
  if (ev =? event_name kind)%string
  then map (pair (node_id this)) (delivered (handler k this data))
  else [].

(** The deliveries of an event over the live channel. *)
Definition deliveries (w : World) (kind : EventKind) (data : Value) : list (string * Value) :=
  dispatch (since_teardown (trace w)) kind data.

(** [n] test cycles of one node: activation, then its [closeFunction] while
    the workflow is reported active. *)
Fixpoint cycles (n : nat) (this : TriggerFunctions) (credentials : Value)
  : list LifecycleCall :=
  match n with
  | O => []
  | S n' => Activate this credentials :: Deactivate this credentials true
            :: cycles n' this credentials
  end.

(** The names of the record of a message, in the order of the object
    literal. *)
Definition message_record_keys : list string :=
  [ "id"; "content"; "guildId"; "channelId"; "authorId"; "authorName";
    "timestamp"; "listenValue"; "authorIsBot"; "referenceId"; "referenceContent";
    "referenceAuthorId"; "referenceAuthorName"; "referenceTimestamp" ].

End Lifecycle.

(** * Properties of the connection manager *)

Module ConnectionManagerFacts.

Import Ipc ConnectionManager.

Lemma has_true_iff (x : string) (s : StringSet) : has x s = true <-> In x s.
Proof.
  unfold has. rewrite existsb_exists. split.
  - intros [y [Hy Heq]]. apply String.eqb_eq in Heq. now subst.
  - intros Hin. exists x. split; [assumption | apply String.eqb_refl].
Qed.

Lemma has_false_iff (x : string) (s : StringSet) : has x s = false <-> ~ In x s.
Proof.
  rewrite <- has_true_iff. destruct (has x s); split; intros; congruence.
Qed.

Lemma connect_count (id : string) (cm : t) :
  connectionCount (snd (connect id cm)) = connectionCount cm + 1.
Proof. unfold connect; simpl. now destruct (has id (registeredNodes cm)). Qed.

Lemma connect_fresh_id (id : string) (cm : t) :
  ~ In id (registeredNodes cm) ->
  connect id cm = (true, {| connectionCount := connectionCount cm + 1;
                            registeredNodes := registeredNodes cm ++ [id] |}).
Proof.
  intros Hnot. apply has_false_iff in Hnot.
  unfold connect, add; simpl. now rewrite Hnot.
Qed.

Lemma connect_bound_id (id : string) (cm : t) :
  In id (registeredNodes cm) ->
  connect id cm = (false, {| connectionCount := connectionCount cm + 1;
                             registeredNodes := registeredNodes cm |}).
Proof.
  intros Hin. apply has_true_iff in Hin.
  unfold connect; simpl. now rewrite Hin.
Qed.

(** C1. [connect id] adds one to the counter; it returns [true] exactly when
    [id] was not bound, and then binds it (last in the enumeration order);
    when [id] was bound it returns [false] and the bound identities stay as
    they were.  From the fresh registry, two distinct identities both get
    [true], and the same identity gets [true] and then [false]. *)
Theorem connect_spec (cm : t) (id a b : string) (Hab : a <> b) :
  (getConnectionCount (snd (connect id cm)) = getConnectionCount cm + 1
   /\ (fst (connect id cm) = true <-> ~ In id (getRegisteredNodes cm))
   /\ (~ In id (getRegisteredNodes cm) ->
         getRegisteredNodes (snd (connect id cm)) = getRegisteredNodes cm ++ [id]
         /\ isNodeRegistered id (snd (connect id cm)) = true)
   /\ (In id (getRegisteredNodes cm) ->
         fst (connect id cm) = false
         /\ getRegisteredNodes (snd (connect id cm)) = getRegisteredNodes cm))
  /\ (fst (connect a connectionManager) = true
      /\ fst (connect b (snd (connect a connectionManager))) = true)
  /\ (fst (connect a connectionManager) = true
      /\ fst (connect a (snd (connect a connectionManager))) = false).
Proof.
  unfold getConnectionCount, getRegisteredNodes, isNodeRegistered.
  split; [| split].
  - split; [apply connect_count |]. split; [| split].
    + split.
      * intros Htrue Hin. rewrite (connect_bound_id _ _ Hin) in Htrue. discriminate.
      * intros Hnot. now rewrite (connect_fresh_id _ _ Hnot).
    + intros Hnot. rewrite (connect_fresh_id _ _ Hnot); simpl. split; [reflexivity |].
      apply has_true_iff, in_or_app. right. now left.
    + intros Hin. now rewrite (connect_bound_id _ _ Hin).
  - rewrite (connect_fresh_id a connectionManager) by (simpl; tauto). simpl.
    split; [reflexivity |].
    rewrite connect_fresh_id; [reflexivity |].
    simpl. intros [Heq | []]. now apply Hab.
  - rewrite (connect_fresh_id a connectionManager) by (simpl; tauto). simpl.
    split; [reflexivity |].
    rewrite connect_bound_id; [reflexivity |]. simpl. now left.
Qed.

Lemma connect_spec_witness :
  getConnectionCount (snd (connect "node-1" connectionManager)) = 1
  /\ fst (connect "node-2" (snd (connect "node-1" connectionManager))) = true
  /\ fst (connect "node-1" (snd (connect "node-1" connectionManager))) = false.
Proof.
  assert (Hab : "node-1" <> "node-2") by discriminate.
  pose proof (connect_spec connectionManager "node-1" "node-1" "node-2" Hab)
    as [[Hcount _] [[_ Hb] [_ Haa]]].
  split; [exact Hcount | split; [exact Hb | exact Haa]].
Defined.

Lemma disconnect_idle (id : string) (cm : t) :
  connectionCount cm <= 0 -> disconnect id cm = (cm, []).
Proof.
  intros Hle. unfold disconnect.
  destruct (Z.leb_spec (connectionCount cm) 0); [reflexivity | lia].
Qed.

Lemma disconnect_last (id : string) (cm : t) :
  connectionCount cm = 1 ->
  disconnect id cm = ({| connectionCount := 0; registeredNodes := [] |}, [Disconnect "bot"]).
Proof.
  intros Hone. unfold disconnect. rewrite Hone. reflexivity.
Qed.

Lemma disconnect_shared (id : string) (cm : t) :
  1 < connectionCount cm ->
  disconnect id cm = ({| connectionCount := connectionCount cm - 1;
                         registeredNodes := registeredNodes cm |}, []).
Proof.
  intros Hgt. unfold disconnect; simpl.
  destruct (Z.leb_spec (connectionCount cm) 0); [lia |].
  destruct (Z.leb_spec (connectionCount cm - 1) 0); [lia | reflexivity].
Qed.

(** The three cases of [disconnect] on a counter in the data model's range. *)
Lemma disconnect_cases (id : string) (cm : t) :
  count_ok cm ->
  (connectionCount cm = 0 /\ disconnect id cm = (cm, []))
  \/ (connectionCount cm = 1
      /\ disconnect id cm = ({| connectionCount := 0; registeredNodes := [] |},
                             [Disconnect "bot"]))
  \/ (1 < connectionCount cm
      /\ disconnect id cm = ({| connectionCount := connectionCount cm - 1;
                                registeredNodes := registeredNodes cm |}, [])).
Proof.
  unfold count_ok. intros Hok.
  destruct (Z.eq_dec (connectionCount cm) 0) as [Hz | Hnz].
  - left. split; [assumption | apply disconnect_idle; lia].
  - destruct (Z.eq_dec (connectionCount cm) 1) as [Hone | Hmany].
    + right; left. split; [assumption | now apply disconnect_last].
    + right; right. split; [lia | apply disconnect_shared; lia].
Qed.

Lemma reactivated_then_deactivated (a : string) :
  run [CallConnect a; CallConnect a; CallDisconnect a] connectionManager
  = {| connectionCount := 1; registeredNodes := [a] |}.
Proof.
  unfold run, fold_left, step.
  rewrite (connect_fresh_id a connectionManager) by (simpl; tauto).
  cbn [snd connectionCount registeredNodes connectionManager app].
  rewrite connect_bound_id by (simpl; now left).
  cbn [snd connectionCount registeredNodes].
  rewrite disconnect_shared by (simpl; lia).
  reflexivity.
Qed.

(** C2. On a counter in its range, [disconnect id] changes nothing when the
    counter is 0.  Otherwise it takes one off the counter; while the result
    is positive the bound identities stay as they were and the channel is
    left alone; when the result is 0 the bound identities are all cleared
    and the channel is torn down, once.  A teardown happens exactly when the
    counter was 1.  After [connect a; connect a; disconnect a] from the fresh
    registry the counter is 1 and [a] is still bound. *)
Theorem disconnect_spec (cm : t) (id a : string) (Hok : count_ok cm) :
  (getConnectionCount cm = 0 -> disconnect id cm = (cm, []))
  /\ (0 < getConnectionCount cm ->
        getConnectionCount (fst (disconnect id cm)) = getConnectionCount cm - 1
        /\ (0 < getConnectionCount cm - 1 ->
              getRegisteredNodes (fst (disconnect id cm)) = getRegisteredNodes cm
              /\ snd (disconnect id cm) = [])
        /\ (getConnectionCount cm - 1 = 0 ->
              getRegisteredNodes (fst (disconnect id cm)) = []
              /\ snd (disconnect id cm) = [Disconnect "bot"]))
  /\ (List.length (filter is_teardown (snd (disconnect id cm))) = 1%nat
      <-> getConnectionCount cm = 1)
  /\ (List.length (filter is_teardown (snd (disconnect id cm))) <= 1)%nat
  /\ (getConnectionCount
        (run [CallConnect a; CallConnect a; CallDisconnect a] connectionManager) = 1
      /\ In a (getRegisteredNodes
                 (run [CallConnect a; CallConnect a; CallDisconnect a] connectionManager))).
Proof.
  unfold getConnectionCount, getRegisteredNodes.
  rewrite reactivated_then_deactivated.
  destruct (disconnect_cases id cm Hok) as [[Hc Hd] | [[Hc Hd] | [Hc Hd]]];
    rewrite Hd; simpl; repeat split; intros; try lia; try discriminate;
    try reflexivity; try (now left).
Qed.

Lemma disconnect_spec_witness :
  getConnectionCount
    (fst (disconnect "node-1" (run [CallConnect "node-1"; CallConnect "node-1"] connectionManager))) = 1
  /\ getRegisteredNodes
       (fst (disconnect "node-1" (run [CallConnect "node-1"; CallConnect "node-1"] connectionManager)))
     = ["node-1"].
Proof.
  assert (Hok : count_ok (run [CallConnect "node-1"; CallConnect "node-1"] connectionManager))
    by (vm_compute; discriminate).
  destruct (disconnect_spec _ "node-1" "node-1" Hok) as [_ [Hpos _]].
  assert (Hgt : 0 < getConnectionCount
                      (run [CallConnect "node-1"; CallConnect "node-1"] connectionManager))
    by reflexivity.
  destruct (Hpos Hgt) as [Hcount [Hkeep _]].
  split; [exact Hcount |].
  apply Hkeep. reflexivity.
Defined.

(** *** The counter along a sequence of calls *)

Lemma net_counts (calls : list Call) : net calls = connects calls - disconnects calls.
Proof.
  unfold connects, disconnects.
  induction calls as [| c calls IH]; [reflexivity |].
  cbn [net filter]. rewrite IH. destruct c; cbn [is_connect negb delta List.length]; lia.
Qed.

Lemma lowest_nonpos (calls : list Call) : lowest calls <= 0.
Proof. destruct calls; simpl; lia. Qed.

Lemma lowest_below_prefix (calls : list Call) (k : nat) :
  lowest calls <= net (firstn k calls).
Proof.
  revert k. induction calls as [| c calls IH]; intros k.
  - rewrite firstn_nil. simpl. lia.
  - destruct k as [| k]; simpl; [lia |]. specialize (IH k). lia.
Qed.

Lemma lowest_is_prefix (calls : list Call) :
  exists k, lowest calls = net (firstn k calls).
Proof.
  induction calls as [| c calls [k IH]].
  - exists 0%nat. reflexivity.
  - simpl. destruct (Z.min_spec 0 (delta c + lowest calls)) as [[_ Hmin] | [_ Hmin]].
    + exists 0%nat. simpl. lia.
    + exists (S k). simpl. lia.
Qed.

Lemma step_count_ok (cm : t) (c : Call) : count_ok cm -> count_ok (step cm c).
Proof.
  unfold count_ok. intros Hok. destruct c as [n | n]; simpl.
  - rewrite connect_count. lia.
  - destruct (disconnect_cases n cm Hok) as [[_ Hd] | [[_ Hd] | [Hc Hd]]];
      rewrite Hd; simpl; lia.
Qed.

(** One call moves the counter by [delta], except that a [disconnect] at 0
    leaves it at 0. *)
Lemma step_count (cm : t) (c : Call) :
  count_ok cm ->
  connectionCount (step cm c) = Z.max 0 (connectionCount cm + delta c).
Proof.
  unfold count_ok. intros Hok. destruct c as [n | n]; simpl.
  - rewrite connect_count. lia.
  - destruct (disconnect_cases n cm Hok) as [[Hc Hd] | [[Hc Hd] | [Hc Hd]]];
      rewrite Hd; simpl; lia.
Qed.

Lemma run_count (calls : list Call) (cm : t) :
  count_ok cm ->
  connectionCount (run calls cm)
  = connectionCount cm + net calls - Z.min 0 (connectionCount cm + lowest calls).
Proof.
  revert cm. induction calls as [| c calls IH]; intros cm Hok.
  - unfold count_ok in Hok. simpl. lia.
  - change (run (c :: calls) cm) with (run calls (step cm c)).
    rewrite (IH _ (step_count_ok cm c Hok)), (step_count cm c Hok).
    pose proof (lowest_nonpos calls). unfold count_ok in Hok.
    destruct c; cbn [net lowest delta]; lia.
Qed.

(** C4 as written fails: a [disconnect] on the fresh registry is a no-op, so
    after [disconnect; connect] the counter is 1, while the number of
    [connect] calls minus the number of [disconnect] calls is 0. *)
Lemma count_is_not_floored_difference :
  getConnectionCount (run [CallDisconnect "node-1"; CallConnect "node-1"] connectionManager) = 1
  /\ floored_difference [CallDisconnect "node-1"; CallConnect "node-1"] = 0.
Proof. split; reflexivity. Qed.

(** C4, amended.  After any sequence of calls from the fresh registry, the
    counter is the number of [connect] calls minus the number of
    [disconnect] calls, less the lowest value this difference takes on a
    prefix of the sequence ([lowest], at most 0 and reached on some prefix):
    the floor at 0 applies after every call, not once at the end.  The
    counter is the floored difference of the claim whenever no prefix holds
    more [disconnect] than [connect] calls.  The bound identities play no
    part. *)
Theorem connection_count_of_calls (calls : list Call) :
  getConnectionCount (run calls connectionManager)
  = connects calls - disconnects calls - lowest calls
  /\ (forall k, lowest calls
                <= connects (firstn k calls) - disconnects (firstn k calls))
  /\ (exists k, lowest calls
                = connects (firstn k calls) - disconnects (firstn k calls))
  /\ ((forall k, disconnects (firstn k calls) <= connects (firstn k calls)) ->
      getConnectionCount (run calls connectionManager) = floored_difference calls).
Proof.
  assert (Hcount : getConnectionCount (run calls connectionManager)
                   = connects calls - disconnects calls - lowest calls).
  { unfold getConnectionCount. rewrite run_count by (unfold count_ok; simpl; lia).
    rewrite <- net_counts. pose proof (lowest_nonpos calls). simpl. lia. }
  split; [exact Hcount |].
  split; [intros k; rewrite <- net_counts; apply lowest_below_prefix |].
  split.
  - destruct (lowest_is_prefix calls) as [k Hk]. exists k. now rewrite <- net_counts.
  - intros Hbalanced. rewrite Hcount. unfold floored_difference.
    destruct (lowest_is_prefix calls) as [k Hk]. rewrite net_counts in Hk.
    pose proof (Hbalanced k). pose proof (lowest_nonpos calls).
    pose proof (Hbalanced (List.length calls)) as Hall. rewrite firstn_all in Hall.
    lia.
Qed.

(** *** The invariant of the registry *)

Lemma fresh_invariant :
  count_ok connectionManager /\ bound_implies_active connectionManager.
Proof.
  unfold count_ok, bound_implies_active. simpl. split; [lia | congruence].
Qed.

Lemma connect_keeps_invariant (cm : t) (id : string) :
  count_ok cm -> bound_implies_active cm ->
  count_ok (snd (connect id cm)) /\ bound_implies_active (snd (connect id cm)).
Proof.
  unfold count_ok, bound_implies_active. intros Hok _.
  rewrite connect_count. split; intros; lia.
Qed.

Lemma disconnect_keeps_invariant (cm : t) (id : string) :
  count_ok cm -> bound_implies_active cm ->
  count_ok (fst (disconnect id cm)) /\ bound_implies_active (fst (disconnect id cm)).
Proof.
  unfold count_ok, bound_implies_active. intros Hok Hinv.
  destruct (disconnect_cases id cm Hok) as [[Hc Hd] | [[Hc Hd] | [Hc Hd]]];
    rewrite Hd; simpl.
  - split; [lia | exact Hinv].
  - split; [lia | congruence].
  - split; intros; lia.
Qed.

(** C5. The fresh registry has no bound identity, so the invariant holds
    there; on a counter in its range, [connect] and [disconnect] keep both
    the range and the invariant, whatever the identity. *)
Theorem bound_implies_active_invariant (cm : t) (id : string)
    (Hok : count_ok cm) (Hinv : bound_implies_active cm) :
  (count_ok connectionManager /\ bound_implies_active connectionManager)
  /\ (count_ok (snd (connect id cm)) /\ bound_implies_active (snd (connect id cm)))
  /\ (count_ok (fst (disconnect id cm)) /\ bound_implies_active (fst (disconnect id cm))).
Proof.
  split; [exact fresh_invariant |].
  split; [now apply connect_keeps_invariant | now apply disconnect_keeps_invariant].
Qed.

Lemma bound_implies_active_invariant_witness :
  bound_implies_active (snd (connect "node-2" (snd (connect "node-1" connectionManager))))
  /\ bound_implies_active (fst (disconnect "node-1" (snd (connect "node-1" connectionManager)))).
Proof.
  assert (Hok : count_ok (snd (connect "node-1" connectionManager)))
    by (vm_compute; discriminate).
  assert (Hinv : bound_implies_active (snd (connect "node-1" connectionManager)))
    by (intros _; reflexivity).
  split.
  - exact (proj2 (proj1 (proj2 (bound_implies_active_invariant _ "node-2" Hok Hinv)))).
  - exact (proj2 (proj2 (proj2 (bound_implies_active_invariant _ "node-1" Hok Hinv)))).
Defined.

(** Hence the invariant holds in every state the calls can reach. *)
Corollary reachable_invariant (calls : list Call) :
  count_ok (run calls connectionManager)
  /\ bound_implies_active (run calls connectionManager).
Proof.
  unfold run. rewrite <- fold_left_rev_right.
  induction (rev calls) as [| c l [IHok IHinv]]; simpl.
  - exact fresh_invariant.
  - destruct c as [n | n]; simpl.
    + now apply connect_keeps_invariant.
    + now apply disconnect_keeps_invariant.
Qed.

End ConnectionManagerFacts.

(** * Properties of objects *)

Module JsFacts.

Import Js.

Lemma lookup_app (k : string) (o1 o2 : Object) :
  lookup k (o1 ++ o2)
  = match lookup k o1 with Some v => Some v | None => lookup k o2 end.
Proof.
  induction o1 as [| [k1 v1] o1 IH]; simpl; [reflexivity |].
  now destruct (k1 =? k)%string.
Qed.

Lemma lookup_set_prop (k k' : string) (v : Value) (o : Object) :
  lookup k (set_prop k' v o) = if (k' =? k)%string then Some v else lookup k o.
Proof.
  induction o as [| [k0 v0] o IH]; simpl; [reflexivity |].
  destruct (String.eqb_spec k0 k') as [-> | Hne]; simpl.
  - now destruct (k' =? k)%string.
  - rewrite IH. destruct (String.eqb_spec k0 k) as [-> | Hne']; [| reflexivity].
    apply String.eqb_neq in Hne. now rewrite String.eqb_sym, Hne.
Qed.

Lemma keys_set_prop (k k' : string) (v : Value) (o : Object) :
  In k (keys (set_prop k' v o)) <-> k = k' \/ In k (keys o).
Proof.
  unfold keys. induction o as [| [k0 v0] o IH]; simpl.
  - intuition congruence.
  - destruct (String.eqb_spec k0 k') as [-> | Hne]; simpl; [| rewrite IH]; intuition.
Qed.


Lemma NoDup_keys_set_prop (k : string) (v : Value) (o : Object) :
  NoDup (keys o) -> NoDup (keys (set_prop k v o)).
Proof.
  induction o as [| [k0 v0] o IH]; simpl; intros Hnd.
  - constructor; [intros [] | constructor].
  - inversion Hnd as [| ? ? Hnotin Hnd']; subst.
    destruct (String.eqb_spec k0 k) as [-> | Hne]; simpl.
    + now constructor.
    + constructor; [| now apply IH].
      fold (keys (set_prop k v o)). rewrite keys_set_prop. intuition.
Qed.

Lemma assign_cons (o : Object) (kv : string * Value) (es : list (string * Value)) :
  assign o (kv :: es) = assign (set_prop (fst kv) (snd kv) o) es.
Proof. reflexivity. Qed.

Lemma NoDup_keys_assign (o : Object) (es : list (string * Value)) :
  NoDup (keys o) -> NoDup (keys (assign o es)).
Proof.
  revert o. induction es as [| kv es IH]; intros o Hnd; [exact Hnd |].
  rewrite assign_cons. now apply IH, NoDup_keys_set_prop.
Qed.

(** Reading a property after an assignment of entries: the last entry of
    that name wins, and without one the property is as before. *)
Lemma lookup_assign (k : string) (o : Object) (es : list (string * Value)) :
  lookup k (assign o es)
  = match lookup k (rev es) with Some v => Some v | None => lookup k o end.
Proof.
  revert o. induction es as [| [k1 v1] es IH]; intros o; [reflexivity |].
  rewrite assign_cons, IH. simpl rev. rewrite lookup_app.
  destruct (lookup k (rev es)); [reflexivity |].
  rewrite lookup_set_prop. simpl. now destruct (k1 =? k)%string.
Qed.





Lemma toUpperCase_char_idempotent (c : ascii) :
  toUpperCase_char (toUpperCase_char c) = toUpperCase_char c.
Proof. destruct c as [[] [] [] [] [] [] [] []]; reflexivity. Qed.

Lemma get_defined (v : Value) (k : string) :
  nullish v = false -> get v k = Normal (get_opt v k).
Proof. unfold get_opt. destruct v; simpl; intros H; (discriminate || reflexivity). Qed.

Lemma get_nullish (v : Value) (k : string) :
  nullish v = true -> get v k = Throw /\ get_opt v k = VUndefined.
Proof. destruct v; simpl; intros H; (discriminate || (split; reflexivity)). Qed.

Lemma truthy_not_nullish (v : Value) : truthy v = true -> nullish v = false.
Proof. destruct v; simpl; intros H; (discriminate || reflexivity). Qed.

End JsFacts.

(** * Properties of the trigger node *)

Module DiscordTriggerFacts.

Import Js Ipc DiscordTrigger JsFacts.

(** ** Activation *)

Lemma skipn_own_length {A : Type} (l extra : list A) :
  skipn (List.length l) (l ++ extra) = extra.
Proof. induction l as [| x l IH]; simpl; [reflexivity | exact IH]. Qed.

Lemma token_of_absent_credentials (credentials : Value) :
  nullish credentials = true -> truthy (get_opt credentials "token") = false.
Proof.
  intros Hnull. now rewrite (proj2 (get_nullish credentials "token" Hnull)).
Qed.

(** What an activation with a token does, in program order. *)
Lemma activation_with_token (this : TriggerFunctions) (credentials : Value) (w : World) :
  truthy (get_opt credentials "token") = true ->
  trigger this credentials w
  = (WithCloseFunction,
     {| manager := snd (ConnectionManager.connect (node_id this) (manager w));
        trace := trace w
                 ++ [HelperConnection credentials; ConnectTo "bot";
                     Emit "triggerNodeRegistered" (registration this credentials)]
                 ++ (if fst (ConnectionManager.connect (node_id this) (manager w))
                     then attach_handlers this else [])
                 ++ [On "disconnect" DisconnectLogger] |}).
Proof.
  intros Htoken. unfold trigger, connected_callback. rewrite Htoken. simpl negb. cbv iota.
  destruct (ConnectionManager.connect (node_id this) (manager w)) as [isNew cm'].
  destruct isNew; reflexivity.
Qed.

(** C10. When the credentials are absent (undefined, null) or carry no
    truthy token, [trigger] returns the empty response, without a close
    function and without throwing, and leaves the world as it was: the
    counter and the bound identities of the registry are unchanged, and the
    activation makes no call at all on the channel, so no connection and no
    listener. *)
Theorem trigger_without_token (this : TriggerFunctions) (credentials : Value) (w : World)
    (Hcred : nullish credentials = true \/ truthy (get_opt credentials "token") = false) :
  fst (trigger this credentials w) = EmptyResponse
  /\ ConnectionManager.getConnectionCount (manager (snd (trigger this credentials w)))
     = ConnectionManager.getConnectionCount (manager w)
  /\ ConnectionManager.getRegisteredNodes (manager (snd (trigger this credentials w)))
     = ConnectionManager.getRegisteredNodes (manager w)
  /\ snd (trigger this credentials w) = w
  /\ activation_effects this credentials w = [].
Proof.
  assert (Htoken : truthy (get_opt credentials "token") = false).
  { destruct Hcred as [Hnull | Hfalse];
      [now apply token_of_absent_credentials | exact Hfalse]. }
  assert (Hrun : trigger this credentials w = (EmptyResponse, w)).
  { unfold trigger. now rewrite Htoken. }
  unfold activation_effects. rewrite Hrun. simpl.
  repeat split; try reflexivity.
  rewrite <- (app_nil_r (trace w)) at 2. apply skipn_own_length.
Qed.

Lemma trigger_without_token_witness :
  fst (trigger (client "node-1") (VObj [("clientId", VStr "42")]) initial) = EmptyResponse
  /\ snd (trigger (client "node-1") (VObj [("clientId", VStr "42")]) initial) = initial.
Proof.
  assert (Hcred : nullish (VObj [("clientId", VStr "42")]) = true
                  \/ truthy (get_opt (VObj [("clientId", VStr "42")]) "token") = false)
    by (right; reflexivity).
  destruct (trigger_without_token (client "node-1") _ initial Hcred) as [Hr [_ [_ [Hw _]]]].
  split; [exact Hr | exact Hw].
Defined.




(** ** Routing of inbound events *)

Lemma get_data (data : Value) (k : string) :
  nullish data = false -> get data k = Normal (get_opt data k).
Proof. apply get_defined. Qed.

(** A handler whose client is not the target of the event delivers nothing,
    whatever the payload. *)
Lemma handler_silent (kind : EventKind) (this : TriggerFunctions) (data : Value) :
  strict_eq_str (node_id this) (get_opt data "nodeId") = false ->
  delivered (handler kind this data) = []
  /\ (nullish data = false -> handler kind this data = Normal []).
Proof.
  intros Hother. destruct (nullish data) eqn:Hdata.
  - split; [| discriminate].
    destruct kind; unfold handler, on_messageCreate, on_guildMember,
      on_guildMemberUpdate, on_messageReaction, on_role, on_roleUpdate;
      now rewrite (proj1 (get_nullish data _ Hdata)).
  - assert (Hrun : handler kind this data = Normal []).
    { destruct kind; unfold handler, on_messageCreate, on_guildMember,
        on_guildMemberUpdate, on_messageReaction, on_role, on_roleUpdate;
        rewrite !(get_data data _ Hdata); cbn [bind]; now rewrite Hother. }
    rewrite Hrun. split; [reflexivity | intros _; reflexivity].
Qed.

Lemma shape_has_data (kind : EventKind) (data : Value) :
  well_shaped kind data = true -> nullish data = false.
Proof.
  destruct (nullish data) eqn:Hdata; [| reflexivity].
  unfold well_shaped.
  destruct kind; rewrite ?(proj2 (get_nullish data _ Hdata)); simpl;
    try rewrite Hdata; simpl; intros H; discriminate H.
Qed.

(** Splitting a shape into the presence of each object it names. *)
Ltac shape_facts H :=
  unfold well_shaped in H;
  repeat (let Hpresent := fresh "Hpresent" in
          apply andb_prop in H; destruct H as [H Hpresent]);
  repeat match goal with
         | Hp : negb (nullish _) = true |- _ => apply negb_true_iff in Hp
         end.

(** Reads of the objects that are there do not throw. *)
Ltac read_present :=
  repeat match goal with
         | Hp : nullish ?v = false |- _ =>
             rewrite ?(get_defined v _ Hp); rewrite ?Hp; clear Hp
         end;
  cbn [bind].

Lemma on_messageCreate_delivers (this : TriggerFunctions) (data : Value) :
  well_shaped MessageCreate data = true ->
  strict_eq_str (node_id this) (get_opt data "nodeId") = true ->
  exists record, on_messageCreate this data = Normal [record].
Proof.
  intros Hshape Hmatch. pose proof (shape_has_data _ _ Hshape) as Hdata.
  unfold well_shaped in Hshape.
  apply andb_prop in Hshape. destruct Hshape as [Hshape Hreference].
  apply andb_prop in Hshape. destruct Hshape as [Hmessage Hauthor].
  apply negb_true_iff in Hmessage, Hauthor.
  unfold on_messageCreate.
  rewrite !(get_data data _ Hdata); cbn [bind]. rewrite Hmatch.
  rewrite !(get_defined _ _ Hmessage), !(get_defined _ _ Hauthor); cbn [bind].
  destruct (truthy (get_opt (get_opt data "author") "bot")); cbn [bind];
    destruct (truthy (get_opt data "messageReference")) eqn:Hpresent; cbn [bind];
    try (eexists; reflexivity).
  all: simpl in Hreference; apply negb_true_iff in Hreference.
  all: rewrite !(get_defined _ _ (truthy_not_nullish _ Hpresent)),
               !(get_defined _ _ Hreference); cbn [bind].
  all: eexists; reflexivity.
Qed.

(** The handler of the event's target delivers one record, when the payload
    has the shape of its kind. *)
Lemma handler_delivers (kind : EventKind) (this : TriggerFunctions) (data : Value) :
  well_shaped kind data = true ->
  strict_eq_str (node_id this) (get_opt data "nodeId") = true ->
  exists record, handler kind this data = Normal [record].
Proof.
  intros Hshape Hmatch. pose proof (shape_has_data kind data Hshape) as Hdata.
  destruct kind; [now apply on_messageCreate_delivers | ..];
    unfold handler, on_guildMember, on_guildMemberUpdate, on_messageReaction,
      on_role, on_roleUpdate, addPrefix, entries;
    rewrite !(get_data data _ Hdata); cbn [bind]; rewrite Hmatch;
    shape_facts Hshape; read_present; eexists; reflexivity.
Qed.






(** The scenario of a client activated twice and deactivated twice: the
    second activation counts but attaches no second set of handlers, so an
    event for the client is delivered once; the first deactivation keeps the
    client bound; the second clears the registry and tears the channel down,
    once, and no listener is left. *)
Example reactivation_scenario :
  let A := client "node-1" in
  let credentials := VObj [("token", VStr "secret"); ("baseUrl", VStr "http://n8n")] in
  let event := VObj [("guildMember", VObj [("id", VStr "u1")]); ("nodeId", VStr "node-1")] in
  let w1 := snd (trigger A credentials initial) in
  let w2 := snd (trigger A credentials w1) in
  manager w1 = {| ConnectionManager.connectionCount := 1;
                  ConnectionManager.registeredNodes := ["node-1"] |}
  /\ manager w2 = {| ConnectionManager.connectionCount := 2;
                     ConnectionManager.registeredNodes := ["node-1"] |}
  /\ dispatch (since_teardown (trace w2)) GuildMemberAdd event
     = [("node-1", VObj [("id", VStr "u1")])]
  /\ exists w3 w4,
       closeFunction A credentials false w2 = Normal w3
       /\ manager w3 = {| ConnectionManager.connectionCount := 1;
                          ConnectionManager.registeredNodes := ["node-1"] |}
       /\ closeFunction A credentials false w3 = Normal w4
       /\ manager w4 = {| ConnectionManager.connectionCount := 0;
                          ConnectionManager.registeredNodes := [] |}
       /\ filter is_teardown (trace w4) = [Disconnect "bot"]
       /\ since_teardown (trace w4) = [].
Proof.
  cbv zeta. split; [reflexivity |]. split; [reflexivity |]. split; [reflexivity |].
  do 2 eexists. split; [reflexivity |]. split; [reflexivity |].
  split; [reflexivity |]. split; [reflexivity |]. split; reflexivity.
Qed.

(** ** The record of a message *)

(** C8 as written fails: the five reference fields are not all taken from
    the reference object.  Two events with the same message reference and
    different [referenceAuthor] objects yield different [referenceAuthorId]
    fields, so that field is not a function of the reference object, which
    here holds no author at all. *)
Lemma reference_author_not_from_reference :
  let message := VObj [("id", VStr "m1"); ("content", VStr "re"); ("channelId", VStr "c1")] in
  let author := VObj [("id", VStr "u0"); ("username", VStr "zoe")] in
  let messageReference :=
    VObj [("id", VStr "m0"); ("content", VStr "hi"); ("createdTimestamp", VNum 5)] in
  let event referenceAuthor :=
    messageCreate_event message author VNull messageReference VUndefined
                        referenceAuthor "node-1" in
  exists r1 r2,
    on_messageCreate (client "node-1")
      (event (VObj [("id", VStr "u1"); ("username", VStr "ann")])) = Normal [VObj r1]
    /\ on_messageCreate (client "node-1")
         (event (VObj [("id", VStr "u2"); ("username", VStr "bob")])) = Normal [VObj r2]
    /\ lookup "referenceAuthorId" r1 = Some (VStr "u1")
    /\ lookup "referenceAuthorId" r2 = Some (VStr "u2").
Proof.
  do 2 eexists. split; [reflexivity |]. split; [reflexivity |]. split; reflexivity.
Qed.

(** C8, amended.  For a message event that matches the client and has the
    shape of its kind, one record is emitted.  When the event has no message
    reference (its [messageReference] is not truthy), the five reference
    fields of the record are [null].  When it has one, all five are set:
    [referenceId], [referenceContent] and [referenceTimestamp] from the
    reference object, [referenceAuthorId] and [referenceAuthorName] from the
    [referenceAuthor] object of the event.  The record has an [attachments]
    field, holding the event's attachments, exactly when those are truthy. *)
Theorem messageCreate_reference_fields (this : TriggerFunctions) (data : Value)
    (Hshape : well_shaped MessageCreate data = true)
    (Hmatch : get_opt data "nodeId" = VStr (node_id this)) :
  let messageReference := get_opt data "messageReference" in
  let referenceAuthor := get_opt data "referenceAuthor" in
  let attachments := get_opt data "attachments" in
  exists record,
    on_messageCreate this data = Normal [VObj record]
    /\ (truthy messageReference = false ->
          lookup "referenceId" record = Some VNull
          /\ lookup "referenceContent" record = Some VNull
          /\ lookup "referenceAuthorId" record = Some VNull
          /\ lookup "referenceAuthorName" record = Some VNull
          /\ lookup "referenceTimestamp" record = Some VNull)
    /\ (truthy messageReference = true ->
          lookup "referenceId" record = Some (get_opt messageReference "id")
          /\ lookup "referenceContent" record = Some (get_opt messageReference "content")
          /\ lookup "referenceTimestamp" record
             = Some (get_opt messageReference "createdTimestamp")
          /\ lookup "referenceAuthorId" record = Some (get_opt referenceAuthor "id")
          /\ lookup "referenceAuthorName" record = Some (get_opt referenceAuthor "username"))
    /\ (truthy attachments = true -> lookup "attachments" record = Some attachments)
    /\ (truthy attachments = false -> lookup "attachments" record = None).
Proof.
  intros messageReference referenceAuthor attachments.
  pose proof (shape_has_data _ _ Hshape) as Hdata.
  unfold well_shaped in Hshape.
  apply andb_prop in Hshape. destruct Hshape as [Hshape Href].
  apply andb_prop in Hshape. destruct Hshape as [Hmessage Hauthor].
  apply negb_true_iff in Hmessage, Hauthor.
  unfold on_messageCreate.
  rewrite !(get_data data _ Hdata); cbn [bind].
  rewrite Hmatch. simpl strict_eq_str. rewrite String.eqb_refl.
  rewrite !(get_defined _ _ Hmessage), !(get_defined _ _ Hauthor); cbn [bind].
  fold messageReference referenceAuthor attachments.
  assert (Hbot : exists authorIsBot,
             (if truthy (get_opt (get_opt data "author") "bot")
              then Normal (get_opt (get_opt data "author") "bot")
              else Normal (get_opt (get_opt data "author") "system"))
             = Normal authorIsBot)
    by (destruct (truthy (get_opt (get_opt data "author") "bot")); eexists; reflexivity).
  destruct Hbot as [authorIsBot ->]; cbn [bind].
  destruct (truthy messageReference) eqn:Hpresent; cbn [bind].
  - assert (Hauthor' : nullish referenceAuthor = false).
    { simpl in Href. subst referenceAuthor messageReference. rewrite Hpresent in Href.
      simpl in Href. now apply negb_true_iff in Href. }
    rewrite !(get_defined _ _ (truthy_not_nullish _ Hpresent)),
            !(get_defined _ _ Hauthor'); cbn [bind].
    destruct (truthy attachments) eqn:Hatt; eexists; (split; [reflexivity |]);
      simpl; repeat split; intros; try reflexivity; discriminate.
  - destruct (truthy attachments) eqn:Hatt; eexists; (split; [reflexivity |]);
      simpl; repeat split; intros; try reflexivity; discriminate.
Qed.

Lemma messageCreate_reference_fields_witness :
  exists record,
    on_messageCreate (client "node-1")
      (messageCreate_event (VObj [("id", VStr "m1")]) (VObj [("id", VStr "u1")]) VNull
         (VObj [("id", VStr "m0")]) VUndefined (VObj [("id", VStr "u0")]) "node-1")
    = Normal [VObj record]
    /\ lookup "referenceId" record = Some (VStr "m0")
    /\ lookup "referenceAuthorId" record = Some (VStr "u0")
    /\ lookup "attachments" record = None.
Proof.
  pose (data := messageCreate_event (VObj [("id", VStr "m1")]) (VObj [("id", VStr "u1")])
                  VNull (VObj [("id", VStr "m0")]) VUndefined
                  (VObj [("id", VStr "u0")]) "node-1").
  assert (Hshape : well_shaped MessageCreate data = true) by reflexivity.
  assert (Hmatch : get_opt data "nodeId" = VStr (node_id (client "node-1")))
    by reflexivity.
  destruct (messageCreate_reference_fields (client "node-1") data Hshape Hmatch)
    as [record [Hrun [_ [Hwith [_ Hnone]]]]].
  exists record. split; [exact Hrun |].
  destruct (Hwith eq_refl) as [Hid [_ [_ [Haid _]]]].
  split; [exact Hid | split; [exact Haid | exact (Hnone eq_refl)]].
Defined.

(** ** The merged record of an update *)











Lemma capitalize_idempotent (k : string) : capitalize (capitalize k) = capitalize k.
Proof. destruct k as [| c rest]; simpl; [| rewrite toUpperCase_char_idempotent]; reflexivity. Qed.

(** C9. The renaming is not injective inside one source object.  A name [k]
    that starts with a lower-case letter and its capitalized form are two
    names with the same prefixed name; a source object holding both yields,
    through [addPrefix], a single field with the value of the later one, and
    the records of the member-update and of the role-update handlers then
    hold that value alone: the other value is lost. *)
Theorem addPrefix_not_injective (this : TriggerFunctions) (prefix k : string)
    (v1 v2 : Value) (Hk : capitalize k <> k) :
  fst (prefixed prefix (k, v1)) = fst (prefixed prefix (capitalize k, v2))
  /\ addPrefix (VObj [(k, v1); (capitalize k, v2)]) prefix
     = Normal [((prefix ++ capitalize k)%string, v2)]
  /\ on_guildMemberUpdate this
       (guildMemberUpdate_event (VObj [(k, v1); (capitalize k, v2)]) (VObj []) (VObj [])
                                (node_id this))
     = Normal [VObj [(("old" ++ capitalize k)%string, v2)]]
  /\ on_roleUpdate this
       (roleUpdate_event (VObj [(k, v1); (capitalize k, v2)]) (VObj []) (VObj [])
                         (node_id this))
     = Normal [VObj [(("old" ++ capitalize k)%string, v2)]].
Proof.
  assert (Hadd : forall p, addPrefix (VObj [(k, v1); (capitalize k, v2)]) p
                           = Normal [((p ++ capitalize k)%string, v2)]).
  { intros p. unfold addPrefix, entries, fromEntries, assign, prefixed. simpl.
    now rewrite capitalize_idempotent, String.eqb_refl. }
  split; [| split; [apply Hadd | split]].
  - unfold prefixed. simpl. now rewrite capitalize_idempotent.
  - unfold on_guildMemberUpdate, guildMemberUpdate_event.
    simpl get; cbn [bind]. simpl strict_eq_str. rewrite String.eqb_refl.
    rewrite Hadd; cbn [bind]. reflexivity.
  - unfold on_roleUpdate, roleUpdate_event.
    simpl get; cbn [bind]. simpl strict_eq_str. rewrite String.eqb_refl.
    rewrite Hadd; cbn [bind]. reflexivity.
Qed.

Lemma addPrefix_not_injective_witness :
  addPrefix (VObj [("id", VStr "1"); ("Id", VStr "2")]) "old"
  = Normal [("oldId", VStr "2")].
Proof.
  assert (Hk : capitalize "id" <> "id") by discriminate.
  exact (proj1 (proj2 (addPrefix_not_injective (client "node-1") "old" "id"
                         (VStr "1") (VStr "2") Hk))).
Defined.

End DiscordTriggerFacts.

(** * Further properties of the connection manager *)

Module RegistryRuns.

Import Ipc ConnectionManager ConnectionManagerFacts Lifecycle.

Lemma run_app (calls1 calls2 : list Call) (cm : t) :
  run (calls1 ++ calls2) cm = run calls2 (run calls1 cm).
Proof. unfold run. apply fold_left_app. Qed.

Lemma run_effects_app (calls1 calls2 : list Call) (cm : t) :
  run_effects (calls1 ++ calls2) cm
  = run_effects calls1 cm ++ run_effects calls2 (run calls1 cm).
Proof.
  revert cm. induction calls1 as [| c calls1 IH]; intros cm; [reflexivity |].
  simpl. rewrite IH, <- app_assoc. reflexivity.
Qed.

(** [disconnect] on any counter, also out of its range. *)
Lemma disconnect_trichotomy (id : string) (cm : t) :
  (connectionCount cm <= 0 /\ disconnect id cm = (cm, []))
  \/ (connectionCount cm = 1
      /\ disconnect id cm = ({| connectionCount := 0; registeredNodes := [] |},
                             [Disconnect "bot"]))
  \/ (1 < connectionCount cm
      /\ disconnect id cm = ({| connectionCount := connectionCount cm - 1;
                                registeredNodes := registeredNodes cm |}, [])).
Proof.
  destruct (Z_le_gt_dec (connectionCount cm) 0) as [Hle | Hgt].
  - left. split; [assumption | now apply disconnect_idle].
  - destruct (Z.eq_dec (connectionCount cm) 1) as [Hone | Hmany].
    + right; left. split; [assumption | now apply disconnect_last].
    + right; right. split; [lia | apply disconnect_shared; lia].
Qed.

Lemma connect_registered (id : string) (cm : t) :
  registeredNodes (snd (connect id cm)) = add id (registeredNodes cm).
Proof.
  unfold connect, add; simpl. now destruct (has id (registeredNodes cm)).
Qed.

Lemma add_NoDup (id : string) (s : StringSet) : NoDup s -> NoDup (add id s).
Proof.
  intros Hnd. unfold add. destruct (has id s) eqn:Hhas; [assumption |].
  apply has_false_iff in Hhas. apply NoDup_app; [assumption | |].
  - constructor; [intros [] | constructor].
  - intros x Hx [<- | []]. contradiction.
Qed.

Lemma add_In (x id : string) (s : StringSet) : In x (add id s) <-> x = id \/ In x s.
Proof.
  unfold add. destruct (has id s) eqn:Hhas.
  - apply has_true_iff in Hhas. split; [now right | intros [-> | H]; assumption].
  - rewrite in_app_iff. simpl. intuition.
Qed.

Lemma add_length (id : string) (s : StringSet) :
  (List.length (add id s) <= S (List.length s))%nat.
Proof.
  unfold add. destruct (has id s); [lia |]. rewrite length_app. simpl. lia.
Qed.

(** One call keeps the set free of repetitions, binds nothing but the
    identity of a [connect], and binds at most one more identity. *)
Lemma step_registered (cm : t) (c : Call) :
  (NoDup (registeredNodes cm) -> NoDup (registeredNodes (step cm c)))
  /\ (forall id, In id (registeredNodes (step cm c)) ->
                 In id (registeredNodes cm) \/ c = CallConnect id)
  /\ (Z.of_nat (List.length (registeredNodes (step cm c)))
      <= Z.of_nat (List.length (registeredNodes cm)) + (if is_connect c then 1 else 0)).
Proof.
  destruct c as [n | n]; simpl.
  - rewrite connect_registered. split; [apply add_NoDup | split].
    + intros id Hin. apply add_In in Hin. destruct Hin as [-> | Hin]; [now right | now left].
    + pose proof (add_length n (registeredNodes cm)). lia.
  - destruct (disconnect_trichotomy n cm) as [[_ Hd] | [[_ Hd] | [_ Hd]]];
      rewrite Hd; simpl; (split; [| split]); intros; try (now left); try lia;
      try assumption; try constructor; try contradiction.
Qed.

Lemma run_registered (calls : list Call) (cm : t) :
  (NoDup (registeredNodes cm) -> NoDup (registeredNodes (run calls cm)))
  /\ (forall id, In id (registeredNodes (run calls cm)) ->
                 In id (registeredNodes cm) \/ In (CallConnect id) calls)
  /\ (Z.of_nat (List.length (registeredNodes (run calls cm)))
      <= Z.of_nat (List.length (registeredNodes cm)) + connects calls).
Proof.
  revert cm. induction calls as [| c calls IH]; intros cm.
  - unfold connects. simpl. split; [trivial | split; [now left | lia]].
  - change (run (c :: calls) cm) with (run calls (step cm c)).
    destruct (IH (step cm c)) as [IHnd [IHin IHlen]].
    destruct (step_registered cm c) as [Hnd [Hin Hlen]].
    split; [| split].
    + intros H. now apply IHnd, Hnd.
    + intros id H. destruct (IHin id H) as [Hstep | Hlater]; [| right; now right].
      destruct (Hin id Hstep) as [Hold | ->]; [now left | right; now left].
    + assert (Hc : connects (c :: calls) = (if is_connect c then 1 else 0) + connects calls).
      { unfold connects. simpl. destruct (is_connect c); simpl List.length; lia. }
      rewrite Hc. lia.
Qed.

(** X1. In every state reached from the fresh registry the registered nodes
    are listed without repetition, [isNodeRegistered] answers membership in
    [getRegisteredNodes], every registered node is the argument of a
    [connect] call of the sequence, and there are at most as many of them
    as [connect] calls. *)
Theorem registered_nodes_of_run (calls : list Call) :
  NoDup (getRegisteredNodes (run calls connectionManager))
  /\ (forall id, isNodeRegistered id (run calls connectionManager) = true
                 <-> In id (getRegisteredNodes (run calls connectionManager)))
  /\ (forall id, In id (getRegisteredNodes (run calls connectionManager)) ->
                 In (CallConnect id) calls)
  /\ Z.of_nat (List.length (getRegisteredNodes (run calls connectionManager)))
     <= connects calls.
Proof.
  unfold getRegisteredNodes, isNodeRegistered.
  destruct (run_registered calls connectionManager) as [Hnd [Hin Hlen]].
  split; [apply Hnd; constructor |].
  split; [intros id; apply has_true_iff |].
  split; [| exact Hlen].
  intros id H. destruct (Hin id H) as [[] | Hcall]. exact Hcall.
Qed.

Lemma run_cons (c : Call) (calls : list Call) (cm : t) :
  run (c :: calls) cm = run calls (step cm c).
Proof. reflexivity. Qed.

Lemma run_effects_cons (c : Call) (calls : list Call) (cm : t) :
  run_effects (c :: calls) cm = call_effects c cm ++ run_effects calls (step cm c).
Proof. reflexivity. Qed.

Lemma run_connects (ids : list string) (cm : t) :
  connectionCount (run (map CallConnect ids) cm)
  = connectionCount cm + Z.of_nat (List.length ids)
  /\ run_effects (map CallConnect ids) cm = [].
Proof.
  revert cm. induction ids as [| id ids IH]; intros cm.
  - simpl. split; [lia | reflexivity].
  - rewrite map_cons, run_cons, run_effects_cons.
    destruct (IH (step cm (CallConnect id))) as [Hc He].
    rewrite Hc, He. cbn [step call_effects app]. rewrite connect_count.
    rewrite length_cons. split; [lia | reflexivity].
Qed.

(** Calls of [disconnect] that leave the counter positive are silent. *)
Lemma run_disconnects_quiet (ids : list string) (cm : t) :
  Z.of_nat (List.length ids) < connectionCount cm ->
  run (map CallDisconnect ids) cm
  = {| connectionCount := connectionCount cm - Z.of_nat (List.length ids);
       registeredNodes := registeredNodes cm |}
  /\ run_effects (map CallDisconnect ids) cm = [].
Proof.
  revert cm. induction ids as [| id ids IH]; intros cm Hlt.
  - simpl. destruct cm; simpl. split; [f_equal; lia | reflexivity].
  - rewrite length_cons in Hlt.
    rewrite map_cons, run_cons, run_effects_cons. cbn [step call_effects].
    rewrite disconnect_shared by lia. cbn [fst snd app].
    destruct (IH {| connectionCount := connectionCount cm - 1;
                    registeredNodes := registeredNodes cm |}) as [Hrun Hquiet];
      [cbn [connectionCount]; lia |].
    rewrite Hrun, Hquiet. cbn [connectionCount registeredNodes].
    rewrite length_cons. split; [f_equal; lia | reflexivity].
Qed.

Lemma run_disconnects (ids : list string) (cm : t) :
  ids <> [] ->
  connectionCount cm = Z.of_nat (List.length ids) ->
  run (map CallDisconnect ids) cm = connectionManager
  /\ run_effects (map CallDisconnect ids) cm = [Disconnect "bot"].
Proof.
  intros Hne Hcount.
  destruct (exists_last Hne) as [front [id ->]].
  rewrite length_app in Hcount. simpl List.length in Hcount.
  destruct (run_disconnects_quiet front cm) as [Hrun Hquiet]; [lia |].
  rewrite map_app, run_app, run_effects_app, Hrun, Hquiet.
  simpl map. rewrite run_cons, run_effects_cons. cbn [step call_effects].
  rewrite disconnect_last by (cbn [connectionCount]; lia).
  split; reflexivity.
Qed.

(** X2. After [n >= 1] calls of [connect] followed by [n] calls of
    [disconnect], whatever the identities on either side, the registry is
    as at the start, and the channel was torn down once, by the last call
    and not before: [disconnect] counts and never looks at which node it is
    called for. *)
Theorem connects_then_disconnects (opened closed : list string)
    (Hsome : opened <> [])
    (Hsame : List.length opened = List.length closed) :
  run (map CallConnect opened ++ map CallDisconnect closed) connectionManager
  = connectionManager
  /\ run_effects (map CallConnect opened ++ map CallDisconnect closed) connectionManager
     = [Disconnect "bot"]
  /\ run_effects (map CallConnect opened ++ map CallDisconnect (removelast closed))
                 connectionManager = [].
Proof.
  assert (Hclosed : closed <> []).
  { intros ->. destruct opened; [congruence | discriminate]. }
  destruct (run_connects opened connectionManager) as [Hcount Hquiet].
  assert (Hn : connectionCount (run (map CallConnect opened) connectionManager)
               = Z.of_nat (List.length closed)).
  { rewrite Hcount, Hsame. simpl. lia. }
  destruct (run_disconnects closed _ Hclosed Hn) as [Hstate Heffects].
  rewrite run_app, !run_effects_app, Hquiet, Hstate, Heffects.
  split; [reflexivity | split; [reflexivity |]].
  destruct (exists_last Hclosed) as [front [id ->]].
  rewrite removelast_last.
  rewrite length_app in Hn. simpl List.length in Hn.
  apply run_disconnects_quiet. lia.
Qed.

Lemma connects_then_disconnects_witness :
  run (map CallConnect ["node-1"; "node-2"] ++ map CallDisconnect ["node-9"; "node-9"])
      connectionManager = connectionManager.
Proof.
  assert (Hsome : ["node-1"; "node-2"] <> @nil string) by discriminate.
  assert (Hsame : List.length ["node-1"; "node-2"] = List.length ["node-9"; "node-9"])
    by reflexivity.
  exact (proj1 (connects_then_disconnects _ _ Hsome Hsame)).
Defined.

(** X3. A [connect] followed by a [disconnect], for any two identities,
    brings the counter back but not the binding.  From a counter of 0 the
    registry ends empty and the channel is torn down.  From a positive
    counter the channel stays, the nodes registered before stay registered,
    and so does the connected node, although its activation is gone. *)
Theorem connect_then_disconnect (cm : t) (a b : string) (Hok : count_ok cm) :
  getConnectionCount (fst (disconnect b (snd (connect a cm)))) = getConnectionCount cm
  /\ (getConnectionCount cm = 0 ->
        getRegisteredNodes (fst (disconnect b (snd (connect a cm)))) = []
        /\ snd (disconnect b (snd (connect a cm))) = [Disconnect "bot"])
  /\ (0 < getConnectionCount cm ->
        isNodeRegistered a (fst (disconnect b (snd (connect a cm)))) = true
        /\ (forall x, In x (getRegisteredNodes cm) ->
                      In x (getRegisteredNodes (fst (disconnect b (snd (connect a cm))))))
        /\ snd (disconnect b (snd (connect a cm))) = []).
Proof.
  unfold getConnectionCount, getRegisteredNodes, isNodeRegistered, count_ok in *.
  pose proof (connect_count a cm) as Hcount.
  pose proof (connect_registered a cm) as Hreg.
  destruct (disconnect_trichotomy b (snd (connect a cm))) as [[Hc Hd] | [[Hc Hd] | [Hc Hd]]];
    rewrite Hd; cbn [fst snd connectionCount registeredNodes].
  - lia.
  - split; [lia |]. split; [intros _; split; reflexivity | intros; lia].
  - split; [lia |]. split; [intros; lia |]. intros _.
    rewrite Hreg. split; [| split; [| reflexivity]].
    + apply has_true_iff, add_In. now left.
    + intros x Hx. apply add_In. now right.
Qed.

Lemma connect_then_disconnect_witness :
  getConnectionCount
    (fst (disconnect "node-2" (snd (connect "node-1" connectionManager)))) = 0
  /\ getRegisteredNodes
       (fst (disconnect "node-2" (snd (connect "node-1" connectionManager)))) = [].
Proof.
  assert (Hok : count_ok connectionManager) by (vm_compute; discriminate).
  destruct (connect_then_disconnect connectionManager "node-1" "node-2" Hok)
    as [Hcount [Hzero _]].
  split; [exact Hcount | exact (proj1 (Hzero eq_refl))].
Defined.

(** Arithmetic over the tests [0 <? x] of a goal. *)
Ltac positive_cases :=
  repeat match goal with
         | H : context [0 <? ?x] |- _ => destruct (Z.ltb_spec 0 x)
         | |- context [0 <? ?x] => destruct (Z.ltb_spec 0 x)
         end;
  lia.

(** A teardown needs a [connect] since the one before. *)
Lemma teardowns_bound (calls : list Call) (cm : t) :
  (forall e, In e (run_effects calls cm) -> e = Disconnect "bot")
  /\ Z.of_nat (List.length (run_effects calls cm))
     <= (if 0 <? connectionCount cm then 1 else 0) + connects calls
  /\ Z.of_nat (List.length (run_effects calls cm)) <= disconnects calls.
Proof.
  revert cm. induction calls as [| c calls IH]; intros cm.
  - unfold connects, disconnects. simpl.
    split; [contradiction | destruct (0 <? connectionCount cm); lia].
  - rewrite run_effects_cons.
    destruct (IH (step cm c)) as [IHall [IHc IHd]].
    assert (Hc : connects (c :: calls) = (if is_connect c then 1 else 0) + connects calls).
    { unfold connects. simpl. destruct (is_connect c); simpl List.length; lia. }
    assert (Hd : disconnects (c :: calls)
                 = (if is_connect c then 0 else 1) + disconnects calls).
    { unfold disconnects. simpl. destruct (is_connect c); simpl List.length; lia. }
    rewrite Hc, Hd, length_app.
    destruct c as [n | n]; cbn [call_effects step is_connect] in *.
    + rewrite connect_count in IHc. simpl List.length.
      split; [exact IHall |]. positive_cases.
    + destruct (disconnect_trichotomy n cm) as [[Hcm Hdis] | [[Hcm Hdis] | [Hcm Hdis]]];
        rewrite Hdis in *; cbn [fst snd connectionCount List.length app] in *.
      * split; [exact IHall |]. positive_cases.
      * split; [intros e [<- | He]; [reflexivity | now apply IHall] |]. positive_cases.
      * split; [exact IHall |]. positive_cases.
Qed.

(** X4. Along any sequence of calls from the fresh registry, the only call
    the registry makes on the channel is [ipc.disconnect('bot')], and it
    makes it at most as often as there are [connect] calls and at most as
    often as there are [disconnect] calls. *)
Theorem teardowns_of_run (calls : list Call) :
  (forall e, In e (run_effects calls connectionManager) -> e = Disconnect "bot")
  /\ Z.of_nat (List.length (run_effects calls connectionManager)) <= connects calls
  /\ Z.of_nat (List.length (run_effects calls connectionManager)) <= disconnects calls.
Proof.
  destruct (teardowns_bound calls connectionManager) as [Hall [Hc Hd]].
  split; [exact Hall | split; [exact Hc | exact Hd]].
Qed.

End RegistryRuns.

(** * Further properties of the event handlers *)

Module HandlerFacts.

Import Js Ipc DiscordTrigger JsFacts DiscordTriggerFacts Lifecycle.

(** ** Objects built by assignment *)







(** ** When a handler throws *)

(** Reads of a payload part, by whether the part is there. *)
Ltac by_presence v :=
  let Hv := fresh "Hpart" in
  destruct (nullish v) eqn:Hv;
  [ rewrite ?(proj1 (get_nullish v _ Hv)) | rewrite ?(get_defined v _ Hv) ];
  cbn [bind].

(** X11. On a payload that is an object, a handler throws exactly when its
    client is the target of the event and the payload lacks one of the
    objects the handler of that kind reads from: a handler of another
    client never throws, and neither does the target's handler on a payload
    of the right shape. *)
Theorem handler_throws_iff (kind : EventKind) (this : TriggerFunctions) (data : Value)
    (Hdata : nullish data = false) :
  handler kind this data = Throw
  <-> strict_eq_str (node_id this) (get_opt data "nodeId") = true
      /\ well_shaped kind data = false.
Proof.
  destruct (strict_eq_str (node_id this) (get_opt data "nodeId")) eqn:Hmatch.
  2:{ rewrite (proj2 (handler_silent kind this data Hmatch) Hdata).
      split; [discriminate | intros [H _]; discriminate]. }
  destruct (well_shaped kind data) eqn:Hshape.
  { destruct (handler_delivers kind this data Hshape Hmatch) as [record ->].
    split; [discriminate | intros [_ H]; discriminate]. }
  split; [intros _; split; reflexivity | intros _].
  unfold well_shaped in Hshape.
  destruct kind; unfold handler, on_messageCreate, on_guildMember, on_guildMemberUpdate,
    on_messageReaction, on_role, on_roleUpdate, addPrefix, entries;
    rewrite !(get_data data _ Hdata); cbn [bind]; rewrite Hmatch;
    try (rewrite Hdata in Hshape; discriminate Hshape).
  - (* messageCreate *)
    by_presence (get_opt data "message"); [reflexivity |].
    by_presence (get_opt data "author"); [reflexivity |].
    simpl in Hshape. apply orb_false_iff in Hshape. destruct Hshape as [Href Hauthor].
    apply negb_false_iff in Href, Hauthor. rewrite Href.
    rewrite !(get_defined _ _ (truthy_not_nullish _ Href)).
    rewrite !(proj1 (get_nullish _ _ Hauthor)).
    destruct (truthy (get_opt (get_opt data "author") "bot")); reflexivity.
  - (* guildMemberUpdate *)
    destruct (nullish (get_opt data "oldMember")); [reflexivity |].
    destruct (nullish (get_opt data "newMember")); [reflexivity |].
    destruct (nullish (get_opt data "guild")); [reflexivity | discriminate].
  - (* messageReactionAdd *)
    by_presence (get_opt data "message"); [reflexivity |].
    by_presence (get_opt data "guild"); [reflexivity | discriminate].
  - (* messageReactionRemove *)
    by_presence (get_opt data "message"); [reflexivity |].
    by_presence (get_opt data "guild"); [reflexivity | discriminate].
  - (* roleUpdate *)
    destruct (nullish (get_opt data "oldRole")); [reflexivity |].
    destruct (nullish (get_opt data "newRole")); [reflexivity | discriminate].
Qed.

Lemma handler_throws_iff_witness :
  handler MessageReactionAdd (client "node-1")
    (VObj [ ("messageReaction", VObj []); ("message", VObj [("channelId", VStr "c1")]);
            ("user", VObj []); ("guild", VNull); ("nodeId", VStr "node-1") ]) = Throw.
Proof.
  apply handler_throws_iff; [reflexivity | split; reflexivity].
Defined.

(** ** The records of the other kinds *)

(** X12. The handlers of a member joining or leaving and of a role created
    or deleted pass one part of the payload through as it is: for the
    target, on any payload that is an object, the record is the payload's
    [guildMember] (its [role]), whatever the other parts are, and
    [undefined] when the payload has no such part. *)
Theorem passthrough_records (this : TriggerFunctions) (data : Value)
    (Hdata : nullish data = false)
    (Hmatch : get_opt data "nodeId" = VStr (node_id this)) :
  handler GuildMemberAdd this data = Normal [get_opt data "guildMember"]
  /\ handler GuildMemberRemove this data = Normal [get_opt data "guildMember"]
  /\ handler RoleCreate this data = Normal [get_opt data "role"]
  /\ handler RoleDelete this data = Normal [get_opt data "role"]
  /\ (lookup "guildMember" (own_entries data) = None ->
      handler GuildMemberAdd this data = Normal [VUndefined]).
Proof.
  unfold handler, on_guildMember, on_role.
  rewrite !(get_data data _ Hdata); cbn [bind].
  rewrite Hmatch. simpl strict_eq_str. rewrite String.eqb_refl.
  repeat split. intros Hmissing.
  destruct data; try discriminate Hdata; try reflexivity.
  unfold get_opt, get. simpl in Hmissing. now rewrite Hmissing.
Qed.

Lemma passthrough_records_witness :
  handler GuildMemberAdd (client "node-1")
    (VObj [("guildMember", VObj [("id", VStr "u1")]); ("nodeId", VStr "node-1")])
  = Normal [VObj [("id", VStr "u1")]].
Proof.
  refine (proj1 (passthrough_records (client "node-1") _ _ _)); reflexivity.
Defined.

(** X13. The record of a reaction is an object that reads as follows:
    [guildId] is the [id] of the payload's guild and [channelId] the
    [channelId] of its message, also when the reaction or the user has a
    field of that name; any other name reads as the user's field when the
    user has one, and as the reaction's field otherwise. *)
Theorem messageReaction_record (this : TriggerFunctions) (data : Value)
    (Hshape : well_shaped MessageReactionAdd data = true)
    (Hmatch : get_opt data "nodeId" = VStr (node_id this)) :
  exists record,
    handler MessageReactionAdd this data = Normal [VObj record]
    /\ handler MessageReactionRemove this data = Normal [VObj record]
    /\ NoDup (keys record)
    /\ lookup "guildId" record = Some (get_opt (get_opt data "guild") "id")
    /\ lookup "channelId" record = Some (get_opt (get_opt data "message") "channelId")
    /\ (forall k, k <> "guildId" -> k <> "channelId" ->
          lookup k record
          = match last_field k (own_entries (get_opt data "user")) with
            | Some v => Some v
            | None => last_field k (own_entries (get_opt data "messageReaction"))
            end).
Proof.
  pose proof (shape_has_data _ _ Hshape) as Hdata.
  unfold well_shaped in Hshape. apply andb_prop in Hshape.
  destruct Hshape as [Hmessage Hguild]. apply negb_true_iff in Hmessage, Hguild.
  unfold handler, on_messageReaction.
  rewrite !(get_data data _ Hdata); cbn [bind].
  rewrite Hmatch. simpl strict_eq_str. rewrite String.eqb_refl.
  rewrite (get_defined _ _ Hmessage), (get_defined _ _ Hguild); cbn [bind].
  eexists. split; [reflexivity |]. split; [reflexivity |]. split; [| split; [| split]].
  - do 2 apply NoDup_keys_set_prop. do 2 apply NoDup_keys_assign. constructor.
  - rewrite lookup_set_prop. reflexivity.
  - rewrite !lookup_set_prop. reflexivity.
  - intros k Hg Hc. rewrite !lookup_set_prop.
    apply not_eq_sym in Hg, Hc. apply String.eqb_neq in Hg, Hc. rewrite Hg, Hc.
    rewrite !lookup_assign. unfold last_field. simpl.
    destruct (lookup k (rev (own_entries (get_opt data "user")))); [reflexivity |].
    now destruct (lookup k (rev (own_entries (get_opt data "messageReaction")))).
Qed.

Lemma messageReaction_record_witness :
  exists record,
    handler MessageReactionAdd (client "node-1")
      (VObj [ ("messageReaction", VObj [("count", VNum 2); ("guildId", VStr "stale")]);
              ("message", VObj [("channelId", VStr "c1")]);
              ("user", VObj [("id", VStr "u1")]);
              ("guild", VObj [("id", VStr "g1")]); ("nodeId", VStr "node-1") ])
    = Normal [VObj record]
    /\ lookup "guildId" record = Some (VStr "g1").
Proof.
  pose (data := VObj [ ("messageReaction", VObj [("count", VNum 2); ("guildId", VStr "stale")]);
                       ("message", VObj [("channelId", VStr "c1")]);
                       ("user", VObj [("id", VStr "u1")]);
                       ("guild", VObj [("id", VStr "g1")]); ("nodeId", VStr "node-1") ]).
  assert (Hshape : well_shaped MessageReactionAdd data = true) by reflexivity.
  assert (Hmatch : get_opt data "nodeId" = VStr (node_id (client "node-1")))
    by reflexivity.
  destruct (messageReaction_record (client "node-1") data Hshape Hmatch)
    as [record [Hrun [_ [_ [Hguild _]]]]].
  exists record. split; [exact Hrun | exact Hguild].
Defined.



(** X15. The record of a message has the fourteen names of the object
    literal, in its order, and [attachments] last when the payload's
    attachments are truthy.  Its [id], [content], [channelId] and
    [timestamp] are read from the message and [authorId] and [authorName]
    from the author; [guildId] is the guild's [id], and [undefined] without
    a throw when the payload has no guild; [listenValue] is the client's own
    parameter [value] (the empty string by default), not a part of the
    event; [authorIsBot] is the author's [bot] when truthy, its [system]
    otherwise. *)
Theorem messageCreate_record_fields (this : TriggerFunctions) (data : Value)
    (Hshape : well_shaped MessageCreate data = true)
    (Hmatch : get_opt data "nodeId" = VStr (node_id this)) :
  let message := get_opt data "message" in
  let author := get_opt data "author" in
  exists record,
    on_messageCreate this data = Normal [VObj record]
    /\ keys record
       = message_record_keys
         ++ (if truthy (get_opt data "attachments") then ["attachments"] else [])
    /\ lookup "id" record = Some (get_opt message "id")
    /\ lookup "content" record = Some (get_opt message "content")
    /\ lookup "channelId" record = Some (get_opt message "channelId")
    /\ lookup "timestamp" record = Some (get_opt message "createdTimestamp")
    /\ lookup "authorId" record = Some (get_opt author "id")
    /\ lookup "authorName" record = Some (get_opt author "username")
    /\ lookup "guildId" record = Some (get_opt (get_opt data "guild") "id")
    /\ (nullish (get_opt data "guild") = true -> lookup "guildId" record = Some VUndefined)
    /\ lookup "listenValue" record = Some (getNodeParameter this "value" (VStr ""))
    /\ lookup "authorIsBot" record
       = Some (if truthy (get_opt author "bot")
               then get_opt author "bot" else get_opt author "system").
Proof.
  intros message author.
  pose proof (shape_has_data _ _ Hshape) as Hdata.
  unfold well_shaped in Hshape.
  apply andb_prop in Hshape. destruct Hshape as [Hshape Href].
  apply andb_prop in Hshape. destruct Hshape as [Hmessage Hauthor].
  apply negb_true_iff in Hmessage, Hauthor.
  assert (Hguild : nullish (get_opt data "guild") = true ->
                   get_opt (get_opt data "guild") "id" = VUndefined)
    by (intros Hnone; apply (get_nullish _ _ Hnone)).
  unfold on_messageCreate.
  rewrite !(get_data data _ Hdata); cbn [bind].
  rewrite Hmatch. simpl strict_eq_str. rewrite String.eqb_refl.
  rewrite !(get_defined _ _ Hmessage), !(get_defined _ _ Hauthor); cbn [bind].
  fold message author.
  destruct (truthy (get_opt author "bot")); cbn [bind];
    destruct (truthy (get_opt data "messageReference")) eqn:Hpresent; cbn [bind].
  all: try (simpl in Href; apply negb_true_iff in Href;
            rewrite !(get_defined _ _ (truthy_not_nullish _ Hpresent)),
                    !(get_defined _ _ Href); cbn [bind]).
  all: destruct (truthy (get_opt data "attachments")); eexists;
    (split; [reflexivity |]); simpl; repeat split; try reflexivity;
    intros Hnone; now rewrite (Hguild Hnone).
Qed.

Lemma messageCreate_record_fields_witness :
  exists record,
    on_messageCreate (client "node-1")
      (messageCreate_event (VObj [("id", VStr "m1"); ("content", VStr "hello")])
         (VObj [("id", VStr "u1"); ("system", VBool true)])
         VNull VNull VUndefined VUndefined "node-1")
    = Normal [VObj record]
    /\ keys record = message_record_keys
    /\ lookup "guildId" record = Some VUndefined
    /\ lookup "authorIsBot" record = Some (VBool true).
Proof.
  pose (data := messageCreate_event (VObj [("id", VStr "m1"); ("content", VStr "hello")])
                  (VObj [("id", VStr "u1"); ("system", VBool true)])
                  VNull VNull VUndefined VUndefined "node-1").
  assert (Hshape : well_shaped MessageCreate data = true) by reflexivity.
  assert (Hmatch : get_opt data "nodeId" = VStr (node_id (client "node-1")))
    by reflexivity.
  destruct (messageCreate_record_fields (client "node-1") data Hshape Hmatch)
    as [record [Hrun [Hkeys [_ [_ [_ [_ [_ [_ [_ [Hguild [_ Hbot]]]]]]]]]]]].
  exists record. split; [exact Hrun |].
  split; [rewrite Hkeys; apply app_nil_r |].
  split; [apply Hguild; reflexivity | exact Hbot].
Defined.

End HandlerFacts.

(** * Properties of activations and deactivations *)

Module LifecycleFacts.

Import Js Ipc DiscordTrigger JsFacts DiscordTriggerFacts Lifecycle.
Import ConnectionManagerFacts RegistryRuns.

(** ** Traces *)

Lemma channel_app (tr ext : list Effect) :
  channel (tr ++ ext) = fold_left channel_step ext (channel tr).
Proof. unfold channel. apply fold_left_app. Qed.

Lemma fold_plain (ext : list Effect) (st : bool * list Effect) :
  forallb plain ext = true ->
  fold_left channel_step ext st = (fst st, snd st ++ ext).
Proof.
  revert st. induction ext as [| e ext IH]; intros st Hplain.
  - destruct st. simpl. now rewrite app_nil_r.
  - simpl in Hplain. apply andb_prop in Hplain. destruct Hplain as [He Hext].
    cbn [fold_left]. rewrite (IH _ Hext).
    destruct e; try discriminate He; simpl; now rewrite <- app_assoc.
Qed.

Lemma since_teardown_last (tr : list Effect) (id : string) :
  since_teardown (tr ++ [Disconnect id]) = [].
Proof. unfold since_teardown. rewrite channel_app. reflexivity. Qed.

Lemma router_listeners_app (tr1 tr2 : list Effect) :
  router_listeners (tr1 ++ tr2) = router_listeners tr1 ++ router_listeners tr2.
Proof.
  induction tr1 as [| e tr1 IH]; [reflexivity |].
  destruct e as [| | | | ev [this k |] | |]; simpl; now rewrite IH.
Qed.

Lemma activation_calls_quiet (this : TriggerFunctions) (credentials : Value) (isNew : bool) :
  existsb is_teardown (activation_calls this credentials isNew) = false
  /\ router_listeners (activation_calls this credentials isNew)
     = (if isNew then handlers_of this else []).
Proof. destruct isNew; split; reflexivity. Qed.

(** The client after the calls of an activation: its socket is up; it is
    the client of before, with the handlers the activation attached, when
    that one's socket was up, and a new one with those handlers alone
    otherwise. *)
Lemma channel_after_activation (st : bool * list Effect) (this : TriggerFunctions)
    (credentials : Value) (isNew : bool) :
  fst (fold_left channel_step (activation_calls this credentials isNew) st) = true
  /\ router_listeners
       (snd (fold_left channel_step (activation_calls this credentials isNew) st))
     = (if fst st then router_listeners (snd st) else [])
       ++ (if isNew then handlers_of this else []).
Proof.
  unfold activation_calls.
  change ([HelperConnection credentials; ConnectTo "bot";
           Emit "triggerNodeRegistered" (registration this credentials)]
          ++ (if isNew then attach_handlers this else [])
          ++ [On "disconnect" DisconnectLogger])
    with ([HelperConnection credentials; ConnectTo "bot"]
          ++ (Emit "triggerNodeRegistered" (registration this credentials)
              :: (if isNew then attach_handlers this else [])
                 ++ [On "disconnect" DisconnectLogger])).
  rewrite fold_left_app, fold_plain by (destruct isNew; reflexivity).
  destruct st as [[|] calls]; cbn [fold_left channel_step fst snd];
    (split; [reflexivity |]); rewrite !router_listeners_app;
    destruct isNew; simpl; rewrite ?app_nil_r; reflexivity.
Qed.

(** The client after the calls of a [closeFunction]. *)
Lemma channel_after_deactivation (st : bool * list Effect) (baseUrl apiKey : Value)
    (workflowId : string) (data : Value) :
  fst (fold_left channel_step
         [HelperCheckWorkflowStatus baseUrl apiKey workflowId; ConnectTo "bot";
          Emit "triggerNodeRemoved" data] st) = true
  /\ router_listeners
       (snd (fold_left channel_step
               [HelperCheckWorkflowStatus baseUrl apiKey workflowId; ConnectTo "bot";
                Emit "triggerNodeRemoved" data] st))
     = (if fst st then router_listeners (snd st) else []).
Proof.
  destruct st as [[|] calls]; cbn [fold_left channel_step fst snd];
    (split; [reflexivity |]); rewrite ?router_listeners_app; simpl;
    rewrite ?app_nil_r; reflexivity.
Qed.

Lemma token_has_credentials (credentials : Value) :
  truthy (get_opt credentials "token") = true -> nullish credentials = false.
Proof.
  destruct (nullish credentials) eqn:Hnull; [| reflexivity].
  now rewrite (token_of_absent_credentials _ Hnull).
Qed.

(** An activation, by whether the node is already registered. *)
Lemma activate_step (this : TriggerFunctions) (credentials : Value) (w : World) :
  truthy (get_opt credentials "token") = true ->
  let isNew := negb (ConnectionManager.isNodeRegistered (node_id this) (manager w)) in
  lifecycle_step w (Activate this credentials)
  = {| manager :=
         {| ConnectionManager.connectionCount :=
              ConnectionManager.connectionCount (manager w) + 1;
            ConnectionManager.registeredNodes :=
              ConnectionManager.add (node_id this)
                (ConnectionManager.registeredNodes (manager w)) |};
       trace := trace w ++ activation_calls this credentials isNew |}.
Proof.
  intros Htoken isNew. subst isNew. unfold lifecycle_step.
  rewrite (activation_with_token this credentials w Htoken). cbn [snd].
  unfold ConnectionManager.connect, ConnectionManager.isNodeRegistered, activation_calls.
  cbn [ConnectionManager.registeredNodes ConnectionManager.connectionCount].
  destruct (ConnectionManager.has (node_id this)
              (ConnectionManager.registeredNodes (manager w))) eqn:Hhas;
    cbn [fst snd negb]; f_equal; f_equal.
  unfold ConnectionManager.add. now rewrite Hhas.
Qed.

(** A deactivation, by what [disconnect] does. *)
Lemma deactivate_step (this : TriggerFunctions) (credentials : Value) (isActive : bool)
    (w : World) :
  nullish credentials = false ->
  let removed :=
    [ HelperCheckWorkflowStatus (get_opt credentials "baseUrl")
        (get_opt credentials "apiKey") (workflow_id this);
      ConnectTo "bot";
      Emit "triggerNodeRemoved" (VObj [("nodeId", VStr (node_id this))]) ] in
  closeFunction this credentials isActive w
  = Normal
      (if negb isActive || negb (activation_mode this =? "manual")%string
       then {| manager := fst (ConnectionManager.disconnect (node_id this) (manager w));
               trace := trace w ++ removed
                        ++ snd (ConnectionManager.disconnect (node_id this) (manager w)) |}
       else {| manager := manager w; trace := trace w ++ removed |}).
Proof.
  intros Hcred removed. subst removed. unfold closeFunction.
  rewrite !(get_defined _ _ Hcred); cbn [bind].
  destruct (negb isActive || negb (activation_mode this =? "manual")%string);
    [| reflexivity].
  now destruct (ConnectionManager.disconnect (node_id this) (manager w)).
Qed.

(** The world after an activation with a token. *)
Lemma world_after_activation (this : TriggerFunctions) (credentials : Value) (w : World) :
  truthy (get_opt credentials "token") = true ->
  ConnectionManager.registeredNodes (manager (lifecycle_step w (Activate this credentials)))
  = ConnectionManager.add (node_id this) (ConnectionManager.registeredNodes (manager w))
  /\ fst (channel (trace (lifecycle_step w (Activate this credentials)))) = true
  /\ live_listeners (lifecycle_step w (Activate this credentials))
     = (if fst (channel (trace w)) then live_listeners w else [])
       ++ (if negb (ConnectionManager.isNodeRegistered (node_id this) (manager w))
           then handlers_of this else []).
Proof.
  intros Htoken. rewrite (activate_step this credentials w Htoken).
  unfold live_listeners, since_teardown. cbn [manager trace ConnectionManager.registeredNodes].
  rewrite channel_app.
  destruct (channel_after_activation (channel (trace w)) this credentials
              (negb (ConnectionManager.isNodeRegistered (node_id this) (manager w))))
    as [Hup Hlive].
  split; [reflexivity | split; [exact Hup | exact Hlive]].
Qed.

(** The world after a [closeFunction] that does not throw: either the
    channel is torn down and the registry cleared, or the registered nodes
    are as before and the client is the one of before, or a new one. *)
Lemma world_after_deactivation (this : TriggerFunctions) (credentials : Value)
    (isActive : bool) (w : World) :
  nullish credentials = false ->
  (ConnectionManager.registeredNodes
     (manager (lifecycle_step w (Deactivate this credentials isActive))) = []
   /\ fst (channel (trace (lifecycle_step w (Deactivate this credentials isActive)))) = false
   /\ live_listeners (lifecycle_step w (Deactivate this credentials isActive)) = [])
  \/ (ConnectionManager.registeredNodes
        (manager (lifecycle_step w (Deactivate this credentials isActive)))
      = ConnectionManager.registeredNodes (manager w)
      /\ fst (channel (trace (lifecycle_step w (Deactivate this credentials isActive)))) = true
      /\ live_listeners (lifecycle_step w (Deactivate this credentials isActive))
         = (if fst (channel (trace w)) then live_listeners w else [])).
Proof.
  intros Hcred. unfold lifecycle_step.
  rewrite (deactivate_step this credentials isActive w Hcred).
  destruct (channel_after_deactivation (channel (trace w))
              (get_opt credentials "baseUrl") (get_opt credentials "apiKey")
              (workflow_id this) (VObj [("nodeId", VStr (node_id this))]))
    as [Hup Hlive].
  unfold live_listeners, since_teardown.
  destruct (negb isActive || negb (activation_mode this =? "manual")%string).
  - destruct (disconnect_trichotomy (node_id this) (manager w))
      as [[_ Hd] | [[_ Hd] | [_ Hd]]]; rewrite Hd;
      cbn [fst snd manager trace ConnectionManager.registeredNodes].
    + right. rewrite app_nil_r, channel_app. now split; [| split].
    + left. rewrite app_assoc, channel_app. now split; [| split].
    + right. rewrite app_nil_r, channel_app. now split; [| split].
  - right. cbn [manager trace]. rewrite channel_app. now split; [| split].
Qed.

Lemma channel_lost_step (w : World) :
  lifecycle_step w ChannelLost
  = {| manager := manager w; trace := trace w ++ [SocketDestroyed] |}.
Proof. reflexivity. Qed.

Lemma activation_without_token (this : TriggerFunctions) (credentials : Value) (w : World) :
  truthy (get_opt credentials "token") = false ->
  lifecycle_step w (Activate this credentials) = w.
Proof. intros Htoken. unfold lifecycle_step, trigger. now rewrite Htoken. Qed.

Lemma deactivation_without_credentials (this : TriggerFunctions) (credentials : Value)
    (isActive : bool) (w : World) :
  nullish credentials = true ->
  lifecycle_step w (Deactivate this credentials isActive) = w.
Proof.
  intros Hcred. unfold lifecycle_step, closeFunction.
  now rewrite (proj1 (get_nullish _ "baseUrl" Hcred)).
Qed.

(** ** One set of handlers for a registered node *)

Lemma step_keeps_handler_sets (w : World) (c : LifecycleCall) :
  one_handler_set_each w -> one_handler_set_each (lifecycle_step w c).
Proof.
  intros [Hnd [clients [Hlive [Hids Hincl]]]].
  destruct c as [this credentials | this credentials isActive |].
  - (* activation *)
    destruct (truthy (get_opt credentials "token")) eqn:Htoken.
    2:{ rewrite (activation_without_token _ _ _ Htoken).
        split; [exact Hnd | exists clients; now split; [| split]]. }
    destruct (world_after_activation this credentials w Htoken) as [Hregs [_ Hlive']].
    unfold one_handler_set_each. rewrite Hregs, Hlive', Hlive.
    split; [now apply add_NoDup |].
    unfold ConnectionManager.isNodeRegistered.
    destruct (ConnectionManager.has (node_id this)
                (ConnectionManager.registeredNodes (manager w))) eqn:Hhas; cbn [negb].
    + (* registered before: nothing attached *)
      destruct (fst (channel (trace w))).
      * exists clients. rewrite app_nil_r. split; [reflexivity | split; [exact Hids |]].
        intros x Hx. apply add_In. right. now apply Hincl.
      * exists []. split; [reflexivity | split; [constructor | intros x []]].
    + (* new: its nine handlers, after those of the client if it is still there *)
      apply has_false_iff in Hhas.
      destruct (fst (channel (trace w))).
      * exists (clients ++ [this]). rewrite flat_map_app. cbn [flat_map].
        rewrite app_nil_r, map_app. split; [reflexivity | split].
        -- apply NoDup_app; [exact Hids | constructor; [intros [] | constructor] |].
           intros x Hx [<- | []]. now apply Hhas, Hincl.
        -- intros x Hx. apply in_app_or in Hx. apply add_In.
           destruct Hx as [Hx | [<- | []]]; [right; now apply Hincl | now left].
      * exists [this]. cbn [flat_map map app]. rewrite app_nil_r.
        split; [reflexivity | split; [constructor; [intros [] | constructor] |]].
        intros x [<- | []]. apply add_In. now left.
  - (* deactivation *)
    destruct (nullish credentials) eqn:Hcred.
    { rewrite (deactivation_without_credentials _ _ _ _ Hcred).
      split; [exact Hnd | exists clients; now split; [| split]]. }
    unfold one_handler_set_each.
    destruct (world_after_deactivation this credentials isActive w Hcred)
      as [[Hregs [_ Hlive']] | [Hregs [_ Hlive']]]; rewrite Hregs, Hlive'.
    + split; [constructor | exists []; split; [reflexivity | split; [constructor |]]].
      intros x [].
    + split; [exact Hnd |]. destruct (fst (channel (trace w))).
      * exists clients. now split; [| split].
      * exists []. split; [reflexivity | split; [constructor | intros x []]].
  - (* the socket is destroyed *)
    unfold one_handler_set_each, live_listeners, since_teardown in *.
    cbn [lifecycle_step manager trace]. rewrite channel_app.
    split; [exact Hnd | exists clients; now split; [| split]].
Qed.

Lemma step_keeps_all_handlers (w : World) (c : LifecycleCall) :
  is_channel_lost c = false ->
  every_node_has_handlers w -> every_node_has_handlers (lifecycle_step w c).
Proof.
  intros Hkept [clients [Hlive [Hids Hdown]]].
  assert (Hsame : (if fst (channel (trace w)) then live_listeners w else [])
                  = live_listeners w).
  { destruct (fst (channel (trace w))); [reflexivity |].
    rewrite Hlive. rewrite (Hdown eq_refl) in Hids.
    destruct clients; [reflexivity | discriminate]. }
  destruct c as [this credentials | this credentials isActive |]; [| | discriminate].
  - (* activation *)
    destruct (truthy (get_opt credentials "token")) eqn:Htoken.
    2:{ rewrite (activation_without_token _ _ _ Htoken). exists clients. now split; [| split]. }
    destruct (world_after_activation this credentials w Htoken) as [Hregs [Hup Hlive']].
    unfold every_node_has_handlers. rewrite Hregs, Hlive', Hsame, Hlive, Hup.
    unfold ConnectionManager.isNodeRegistered, ConnectionManager.add.
    destruct (ConnectionManager.has (node_id this)
                (ConnectionManager.registeredNodes (manager w))); cbn [negb].
    + exists clients. rewrite app_nil_r. split; [reflexivity | split; [exact Hids | discriminate]].
    + exists (clients ++ [this]). rewrite flat_map_app. cbn [flat_map].
      rewrite app_nil_r, map_app, Hids. split; [reflexivity | split; [reflexivity | discriminate]].
  - (* deactivation *)
    destruct (nullish credentials) eqn:Hcred.
    { rewrite (deactivation_without_credentials _ _ _ _ Hcred).
      exists clients. now split; [| split]. }
    unfold every_node_has_handlers.
    destruct (world_after_deactivation this credentials isActive w Hcred)
      as [[Hregs [Hup Hlive']] | [Hregs [Hup Hlive']]]; rewrite Hregs, Hlive', Hup.
    + exists []. split; [reflexivity | split; [reflexivity | reflexivity]].
    + rewrite Hsame. exists clients. split; [exact Hlive | split; [exact Hids | discriminate]].
Qed.

Lemma lifecycle_keeps_handler_sets (calls : list LifecycleCall) (w : World) :
  one_handler_set_each w -> one_handler_set_each (lifecycle calls w).
Proof.
  revert w. induction calls as [| c calls IH]; intros w Hw; [exact Hw |].
  apply IH, step_keeps_handler_sets, Hw.
Qed.

Lemma lifecycle_keeps_all_handlers (calls : list LifecycleCall) (w : World) :
  never_lost calls ->
  every_node_has_handlers w -> every_node_has_handlers (lifecycle calls w).
Proof.
  unfold never_lost. revert w. induction calls as [| c calls IH]; intros w Hnever Hw;
    [exact Hw |].
  simpl in Hnever. apply orb_false_iff in Hnever. destruct Hnever as [Hc Hcalls].
  apply (IH _ Hcalls), step_keeps_all_handlers; assumption.
Qed.

Lemma initial_handler_sets : one_handler_set_each initial.
Proof.
  split; [constructor | exists []; split; [reflexivity | split; [constructor | intros x []]]].
Qed.

Lemma initial_all_handlers : every_node_has_handlers initial.
Proof. exists []. split; [reflexivity | split; reflexivity]. Qed.

(** X5. After any sequence of activations and deactivations, of any nodes
    and with any credentials, and of destructions of the socket in between,
    the registered nodes are listed once each and the event handlers on the
    live channel are the nine handlers of one activation each of distinct
    registered nodes: no node has two sets, and no handler is left for a
    node that is not registered.  When the socket was never destroyed during
    the sequence, every registered node has its set, in the order of
    registration. *)
Theorem one_handler_set_per_node (calls : list LifecycleCall) :
  NoDup (ConnectionManager.getRegisteredNodes (manager (lifecycle calls initial)))
  /\ exists clients,
       live_listeners (lifecycle calls initial) = flat_map handlers_of clients
       /\ NoDup (map node_id clients)
       /\ (forall id, In id (map node_id clients) ->
             ConnectionManager.isNodeRegistered id (manager (lifecycle calls initial)) = true)
       /\ (never_lost calls ->
           map node_id clients
           = ConnectionManager.getRegisteredNodes (manager (lifecycle calls initial))).
Proof.
  unfold ConnectionManager.getRegisteredNodes, ConnectionManager.isNodeRegistered.
  destruct (lifecycle_keeps_handler_sets calls initial initial_handler_sets)
    as [Hnd [clients [Hlive [Hids Hincl]]]].
  split; [exact Hnd |].
  destruct (existsb is_channel_lost calls) eqn:Hlost.
  - exists clients. split; [exact Hlive | split; [exact Hids | split]].
    + intros id Hid. now apply has_true_iff, Hincl.
    + unfold never_lost. congruence.
  - destruct (lifecycle_keeps_all_handlers calls initial Hlost initial_all_handlers)
      as [every [Hlive' [Hids' _]]].
    exists every. split; [exact Hlive' | split; [now rewrite Hids' | split]].
    + intros id Hid. apply has_true_iff. now rewrite <- Hids'.
    + intros _. exact Hids'.
Qed.

(** ** Deliveries over the live channel *)

Lemma dispatch_router (tr : list Effect) (kind : EventKind) (data : Value) :
  dispatch tr kind data = flat_map (deliver_one kind data) (router_listeners tr).
Proof.
  induction tr as [| e tr IH]; [reflexivity |].
  destruct e as [| | | | ev [this k |] | |]; simpl; now rewrite IH.
Qed.

(** Of the nine handlers of an activation, the one of the event's kind runs. *)
Lemma one_handler_runs {A : Type} (f : EventKind -> list A) (kind : EventKind)
    (this : TriggerFunctions) :
  flat_map (fun l : string * TriggerFunctions * EventKind =>
              let '(ev, _, k) := l in
              if (ev =? event_name kind)%string then f k else [])
           (handlers_of this)
  = f kind.
Proof. destruct kind; simpl; rewrite ?app_nil_r; reflexivity. Qed.

Lemma deliveries_of_clients (clients : list TriggerFunctions) (kind : EventKind)
    (data : Value) :
  flat_map (deliver_one kind data) (flat_map handlers_of clients)
  = flat_map (fun this => map (pair (node_id this)) (delivered (handler kind this data)))
             clients.
Proof.
  induction clients as [| this clients IH]; [reflexivity |].
  cbn [flat_map]. rewrite flat_map_app, IH. f_equal.
  exact (one_handler_runs
           (fun k => map (pair (node_id this)) (delivered (handler k this data)))
           kind this).
Qed.

Lemma strict_eq_str_true (a : string) (v : Value) :
  strict_eq_str a v = true <-> v = VStr a.
Proof.
  destruct v; simpl; try (split; [discriminate | intros [=]]).
  rewrite String.eqb_eq. split; [intros -> | intros [=]]; congruence.
Qed.

(** A handler run delivers one record at most. *)
Lemma delivered_at_most_one (kind : EventKind) (this : TriggerFunctions) (data : Value) :
  (List.length (delivered (handler kind this data)) <= 1)%nat.
Proof.
  destruct kind; unfold handler, on_messageCreate, on_guildMember, on_guildMemberUpdate,
    on_messageReaction, on_role, on_roleUpdate;
    repeat match goal with
           | |- context [bind ?c _] => destruct c; cbn [bind]
           | |- context [if ?b then _ else _] => destruct b
           end;
    simpl; lia.
Qed.

Lemma others_silent (clients : list TriggerFunctions) (kind : EventKind) (data : Value) :
  (forall this, In this clients ->
                strict_eq_str (node_id this) (get_opt data "nodeId") = false) ->
  flat_map (fun this => map (pair (node_id this)) (delivered (handler kind this data)))
           clients = [].
Proof.
  induction clients as [| this clients IH]; intros Hothers; [reflexivity |].
  cbn [flat_map]. rewrite (proj1 (handler_silent kind this data (Hothers this (or_introl eq_refl)))).
  simpl. apply IH. intros other Hin. apply Hothers. now right.
Qed.

Lemma deliveries_to_clients (clients : list TriggerFunctions) (kind : EventKind)
    (data : Value) :
  NoDup (map node_id clients) ->
  let sent := flat_map (fun this => map (pair (node_id this))
                                        (delivered (handler kind this data))) clients in
  (List.length sent <= 1)%nat
  /\ (forall t record, In (t, record) sent ->
        get_opt data "nodeId" = VStr t /\ In t (map node_id clients))
  /\ (forall t, get_opt data "nodeId" = VStr t -> well_shaped kind data = true ->
        In t (map node_id clients) -> List.length sent = 1%nat).
Proof.
  intros Hnd sent. subst sent. induction clients as [| this clients IH].
  - simpl. split; [lia | split; [intros t record [] | intros t _ _ []]].
  - inversion Hnd as [| ? ? Hnotin Hnd']; subst.
    destruct (IH Hnd') as [IHlen [IHto IHone]]. cbn [flat_map].
    destruct (strict_eq_str (node_id this) (get_opt data "nodeId")) eqn:Hm.
    + (* this client is the target: the others are not *)
      apply strict_eq_str_true in Hm.
      assert (Hrest : flat_map (fun c => map (pair (node_id c))
                                             (delivered (handler kind c data))) clients = []).
      { apply others_silent. intros other Hin.
        destruct (strict_eq_str (node_id other) (get_opt data "nodeId")) eqn:Ho;
          [| reflexivity].
        apply strict_eq_str_true in Ho. rewrite Hm in Ho. injection Ho as Ho.
        exfalso. apply Hnotin. rewrite Ho. now apply in_map. }
      rewrite Hrest, app_nil_r, length_map.
      split; [apply delivered_at_most_one | split].
      * intros t record Hin. apply in_map_iff in Hin. destruct Hin as [x [[= <- <-] _]].
        split; [exact Hm | now left].
      * intros t Ht Hshape _.
        destruct (handler_delivers kind this data Hshape) as [record Hrun];
          [now apply strict_eq_str_true |].
        now rewrite Hrun.
    + rewrite (proj1 (handler_silent kind this data Hm)). cbn [map app].
      split; [exact IHlen | split].
      * intros t record Hin. destruct (IHto t record Hin) as [Ht Hin'].
        split; [exact Ht | now right].
      * intros t Ht Hshape [Heq | Hin]; [| exact (IHone t Ht Hshape Hin)].
        exfalso. rewrite Ht in Hm. simpl in Hm. apply String.eqb_neq in Hm.
        now apply Hm.
Qed.

(** X6. After any sequence of activations and deactivations, and of
    destructions of the socket in between, an inbound event is delivered at
    most once; every delivery goes to the sink of the node the event names,
    and that node is registered.  When the socket was never destroyed during
    the sequence, an event of the right shape for a registered node is
    delivered exactly once, however often the node was activated. *)
Theorem at_most_one_delivery (calls : list LifecycleCall) (kind : EventKind)
    (data : Value) :
  (List.length (deliveries (lifecycle calls initial) kind data) <= 1)%nat
  /\ (forall t record,
        In (t, record) (deliveries (lifecycle calls initial) kind data) ->
        get_opt data "nodeId" = VStr t
        /\ ConnectionManager.isNodeRegistered t (manager (lifecycle calls initial)) = true)
  /\ (never_lost calls ->
      forall t,
        get_opt data "nodeId" = VStr t -> well_shaped kind data = true ->
        ConnectionManager.isNodeRegistered t (manager (lifecycle calls initial)) = true ->
        List.length (deliveries (lifecycle calls initial) kind data) = 1%nat).
Proof.
  destruct (lifecycle_keeps_handler_sets calls initial initial_handler_sets)
    as [Hnd [clients [Hlive [Hids Hincl]]]].
  unfold deliveries, ConnectionManager.isNodeRegistered. rewrite dispatch_router.
  split; [| split].
  - unfold live_listeners in Hlive. rewrite Hlive, deliveries_of_clients.
    apply (deliveries_to_clients clients kind data Hids).
  - unfold live_listeners in Hlive. rewrite Hlive, deliveries_of_clients.
    intros t record Hin.
    destruct (deliveries_to_clients clients kind data Hids) as [_ [Hto _]].
    destruct (Hto t record Hin) as [Ht Hreg].
    split; [exact Ht | now apply has_true_iff, Hincl].
  - intros Hnever t Ht Hshape Hreg.
    destruct (lifecycle_keeps_all_handlers calls initial Hnever initial_all_handlers)
      as [every [Hlive' [Hids' _]]].
    unfold live_listeners in Hlive'. rewrite Hlive', deliveries_of_clients.
    rewrite <- Hids' in Hnd.
    destruct (deliveries_to_clients every kind data Hnd) as [_ [_ Hone]].
    apply (Hone t Ht Hshape). rewrite Hids'. now apply has_true_iff.
Qed.

(** X7. A node is activated again while it is registered.  When the socket
    was not destroyed in between, the handlers on the channel stay those of
    the first activation: events for the node are handled by the first
    activation's closure (its [getNodeParameter], its sink), while the
    registration message of the second activation is sent with the second
    one's parameters and the counter is 2.  When the socket was destroyed in
    between, the second activation opens a new client and attaches none of
    the nine handlers to it, the node being registered still: no event is
    delivered to the node, although it is registered and the counter is 2. *)
Theorem reactivation_keeps_first_closure (first second : TriggerFunctions)
    (credentials1 credentials2 : Value)
    (Htoken1 : truthy (get_opt credentials1 "token") = true)
    (Htoken2 : truthy (get_opt credentials2 "token") = true)
    (Hsame : node_id second = node_id first) :
  let kept := lifecycle [Activate first credentials1; Activate second credentials2] initial in
  let lost := lifecycle [Activate first credentials1; ChannelLost;
                         Activate second credentials2] initial in
  (live_listeners kept = handlers_of first
   /\ (forall kind data,
         deliveries kept kind data
         = map (pair (node_id first)) (delivered (handler kind first data)))
   /\ In (Emit "triggerNodeRegistered" (registration second credentials2)) (trace kept)
   /\ ConnectionManager.getConnectionCount (manager kept) = 2)
  /\ (live_listeners lost = []
      /\ (forall kind data, deliveries lost kind data = [])
      /\ In (Emit "triggerNodeRegistered" (registration second credentials2)) (trace lost)
      /\ ConnectionManager.isNodeRegistered (node_id second) (manager lost) = true
      /\ ConnectionManager.getConnectionCount (manager lost) = 2).
Proof.
  intros kept lost.
  assert (Hhas : ConnectionManager.has (node_id first) [node_id first] = true)
    by (apply has_true_iff; now left).
  assert (Hfirst : lifecycle_step initial (Activate first credentials1)
                   = {| manager := {| ConnectionManager.connectionCount := 1;
                                      ConnectionManager.registeredNodes := [node_id first] |};
                        trace := activation_calls first credentials1 true |}).
  { rewrite (activate_step first credentials1 initial Htoken1). reflexivity. }
  assert (Hkept : kept = {| manager := {| ConnectionManager.connectionCount := 2;
                                          ConnectionManager.registeredNodes := [node_id first] |};
                            trace := activation_calls first credentials1 true
                                     ++ activation_calls second credentials2 false |}).
  { subst kept. unfold lifecycle. cbn [fold_left]. rewrite Hfirst.
    rewrite (activate_step second credentials2 _ Htoken2).
    unfold ConnectionManager.isNodeRegistered, ConnectionManager.add.
    cbn [manager trace ConnectionManager.registeredNodes ConnectionManager.connectionCount].
    rewrite Hsame, Hhas. reflexivity. }
  assert (Hlost : lost = {| manager := {| ConnectionManager.connectionCount := 2;
                                          ConnectionManager.registeredNodes := [node_id first] |};
                            trace := (activation_calls first credentials1 true
                                      ++ [SocketDestroyed])
                                     ++ activation_calls second credentials2 false |}).
  { subst lost. unfold lifecycle. cbn [fold_left]. rewrite Hfirst.
    rewrite channel_lost_step. cbn [manager trace].
    rewrite (activate_step second credentials2 _ Htoken2).
    unfold ConnectionManager.isNodeRegistered, ConnectionManager.add.
    cbn [manager trace ConnectionManager.registeredNodes ConnectionManager.connectionCount].
    rewrite Hsame, Hhas. reflexivity. }
  rewrite Hkept, Hlost. clear Hkept Hlost kept lost.
  assert (Hlive : live_listeners
                    {| manager := {| ConnectionManager.connectionCount := 2;
                                     ConnectionManager.registeredNodes := [node_id first] |};
                       trace := activation_calls first credentials1 true
                                ++ activation_calls second credentials2 false |}
                  = handlers_of first) by reflexivity.
  assert (Hnone : since_teardown
                    ((activation_calls first credentials1 true ++ [SocketDestroyed])
                     ++ activation_calls second credentials2 false)
                  = [ConnectTo "bot";
                     Emit "triggerNodeRegistered" (registration second credentials2);
                     On "disconnect" DisconnectLogger]) by reflexivity.
  split; [split; [exact Hlive | split; [| split; [| reflexivity]]] |].
  - intros kind data. unfold deliveries. unfold live_listeners in Hlive.
    rewrite dispatch_router, Hlive.
    exact (one_handler_runs
             (fun k => map (pair (node_id first)) (delivered (handler k first data)))
             kind first).
  - cbn [trace]. apply in_or_app. right. right. right. now left.
  - unfold live_listeners, deliveries. cbn [trace manager]. rewrite Hnone.
    split; [reflexivity | split; [reflexivity | split; [| split; [| reflexivity]]]].
    + apply in_or_app. right. right. right. now left.
    + unfold ConnectionManager.isNodeRegistered.
      cbn [ConnectionManager.registeredNodes]. now rewrite Hsame.
Qed.

Lemma reactivation_keeps_first_closure_witness :
  live_listeners
    (lifecycle [ Activate (client "node-1") (VObj [("token", VStr "secret")]);
                 Activate (client "node-1") (VObj [("token", VStr "other")]) ] initial)
  = handlers_of (client "node-1")
  /\ live_listeners
       (lifecycle [ Activate (client "node-1") (VObj [("token", VStr "secret")]);
                    ChannelLost;
                    Activate (client "node-1") (VObj [("token", VStr "other")]) ] initial)
     = [].
Proof.
  split.
  - refine (proj1 (proj1 (reactivation_keeps_first_closure (client "node-1") (client "node-1")
                     (VObj [("token", VStr "secret")]) (VObj [("token", VStr "other")])
                     _ _ _))); reflexivity.
  - refine (proj1 (proj2 (reactivation_keeps_first_closure (client "node-1") (client "node-1")
                     (VObj [("token", VStr "secret")]) (VObj [("token", VStr "other")])
                     _ _ _))); reflexivity.
Defined.

(** ** Deactivation *)

(** X8. The [closeFunction] throws exactly when its credentials are
    [undefined] or [null], before any call.  Otherwise it asks the helper
    for the workflow status, sends the deregistration message of its node,
    and then calls [disconnect] on the registry exactly when the workflow is
    reported inactive or the activation mode is not [manual]: in manual mode
    with an active workflow the registry is left as it is. *)
Theorem closeFunction_policy (this : TriggerFunctions) (credentials : Value)
    (isActive : bool) (w : World) :
  (closeFunction this credentials isActive w = Throw <-> nullish credentials = true)
  /\ forall w', closeFunction this credentials isActive w = Normal w' ->
       (exists torn_down,
          trace w'
          = trace w
            ++ [ HelperCheckWorkflowStatus (get_opt credentials "baseUrl")
                   (get_opt credentials "apiKey") (workflow_id this);
                 ConnectTo "bot";
                 Emit "triggerNodeRemoved" (VObj [("nodeId", VStr (node_id this))]) ]
            ++ torn_down
          /\ (torn_down = [] \/ torn_down = [Disconnect "bot"]))
       /\ (isActive = true -> activation_mode this = "manual" ->
           manager w' = manager w
           /\ filter is_teardown (trace w') = filter is_teardown (trace w))
       /\ (isActive = false \/ activation_mode this <> "manual" ->
           manager w' = fst (ConnectionManager.disconnect (node_id this) (manager w))).
Proof.
  destruct (nullish credentials) eqn:Hcred.
  - assert (Hthrow : closeFunction this credentials isActive w = Throw).
    { unfold closeFunction. now rewrite (proj1 (get_nullish _ "baseUrl" Hcred)). }
    rewrite Hthrow. split; [split; reflexivity | intros w' H; discriminate].
  - rewrite (deactivate_step this credentials isActive w Hcred).
    split; [split; intros H; discriminate |].
    intros w' [= <-].
    destruct isActive; cbn [negb orb].
    + destruct (String.eqb_spec (activation_mode this) "manual") as [Hmode | Hmode];
        cbn [negb].
      * cbn [manager trace]. split; [exists []; split; [reflexivity | now left] |].
        split; [intros _ _; split; [reflexivity |] | intros [H | H]; congruence].
        rewrite filter_app. simpl. now rewrite app_nil_r.
      * cbn [manager trace]. split; [| split; [intros _ H; congruence | reflexivity]].
        eexists. split; [reflexivity |].
        destruct (disconnect_trichotomy (node_id this) (manager w))
          as [[_ Hd] | [[_ Hd] | [_ Hd]]]; rewrite Hd; simpl; auto.
    + cbn [manager trace]. split; [| split; [intros H; discriminate | reflexivity]].
      eexists. split; [reflexivity |].
      destruct (disconnect_trichotomy (node_id this) (manager w))
        as [[_ Hd] | [[_ Hd] | [_ Hd]]]; rewrite Hd; simpl; auto.
Qed.

Lemma add_idempotent (id : string) (s : ConnectionManager.StringSet) :
  ConnectionManager.add id (ConnectionManager.add id s) = ConnectionManager.add id s.
Proof.
  assert (Hhas : ConnectionManager.has id (ConnectionManager.add id s) = true)
    by (apply has_true_iff, add_In; now left).
  unfold ConnectionManager.add at 1. now rewrite Hhas.
Qed.

(** One test cycle in manual mode. *)
Lemma manual_cycle (this : TriggerFunctions) (credentials : Value) (w : World) :
  truthy (get_opt credentials "token") = true ->
  activation_mode this = "manual" ->
  exists added,
    lifecycle [Activate this credentials; Deactivate this credentials true] w
    = {| manager :=
           {| ConnectionManager.connectionCount :=
                ConnectionManager.connectionCount (manager w) + 1;
              ConnectionManager.registeredNodes :=
                ConnectionManager.add (node_id this)
                  (ConnectionManager.registeredNodes (manager w)) |};
         trace := trace w ++ added |}
    /\ existsb is_teardown added = false.
Proof.
  intros Htoken Hmode. unfold lifecycle. cbn [fold_left].
  rewrite (activate_step this credentials w Htoken).
  unfold lifecycle_step.
  rewrite (deactivate_step this credentials true _ (token_has_credentials _ Htoken)).
  rewrite Hmode, String.eqb_refl. cbn [negb orb manager trace].
  eexists. rewrite <- app_assoc. split; [reflexivity |].
  rewrite existsb_app.
  now rewrite (proj1 (activation_calls_quiet this credentials _)).
Qed.

Lemma lifecycle_app (calls1 calls2 : list LifecycleCall) (w : World) :
  lifecycle (calls1 ++ calls2) w = lifecycle calls2 (lifecycle calls1 w).
Proof. unfold lifecycle. apply fold_left_app. Qed.

Lemma filter_quiet (tr added : list Effect) :
  existsb is_teardown added = false ->
  filter is_teardown (tr ++ added) = filter is_teardown tr.
Proof.
  intros Hquiet. rewrite filter_app.
  assert (Hnone : filter is_teardown added = []).
  { induction added as [| e added IH]; [reflexivity |].
    simpl in *. apply orb_false_iff in Hquiet. destruct Hquiet as [He Hrest].
    rewrite He. now apply IH. }
  now rewrite Hnone, app_nil_r.
Qed.

(** X9. In manual mode, while the workflow is reported active, each cycle
    of activation and deactivation of a node adds one to the counter and
    none is taken off: after [n] cycles the counter is [n] higher, the
    channel has not been torn down, and the node is registered. *)
Theorem manual_cycles_accumulate (n : nat) (this : TriggerFunctions) (credentials : Value)
    (w : World)
    (Htoken : truthy (get_opt credentials "token") = true)
    (Hmanual : activation_mode this = "manual") :
  ConnectionManager.getConnectionCount (manager (lifecycle (cycles n this credentials) w))
  = ConnectionManager.getConnectionCount (manager w) + Z.of_nat n
  /\ filter is_teardown (trace (lifecycle (cycles n this credentials) w))
     = filter is_teardown (trace w)
  /\ ((0 < n)%nat ->
      ConnectionManager.isNodeRegistered (node_id this)
        (manager (lifecycle (cycles n this credentials) w)) = true).
Proof.
  unfold ConnectionManager.getConnectionCount, ConnectionManager.isNodeRegistered.
  revert w. induction n as [| n IH]; intros w.
  - simpl. split; [lia | split; [reflexivity | lia]].
  - change (cycles (S n) this credentials)
      with ([Activate this credentials; Deactivate this credentials true]
            ++ cycles n this credentials).
    rewrite lifecycle_app.
    destruct (manual_cycle this credentials w Htoken Hmanual) as [added [-> Hquiet]].
    destruct (IH {| manager :=
                      {| ConnectionManager.connectionCount :=
                           ConnectionManager.connectionCount (manager w) + 1;
                         ConnectionManager.registeredNodes :=
                           ConnectionManager.add (node_id this)
                             (ConnectionManager.registeredNodes (manager w)) |};
                    trace := trace w ++ added |}) as [Hcount [Htorn Hreg]].
    cbn [manager trace ConnectionManager.connectionCount] in Hcount, Htorn.
    split; [rewrite Hcount; lia |].
    split; [rewrite Htorn; now apply filter_quiet |].
    intros _. destruct n as [| n]; [| apply Hreg; lia].
    simpl. apply has_true_iff, add_In. now left.
Qed.

Lemma manual_cycles_accumulate_witness :
  ConnectionManager.getConnectionCount
    (manager (lifecycle
                (cycles 3 {| node_id := "node-1"; node_parameters := [];
                             getNodeParameter := fun _ fallback => fallback;
                             workflow_active := true; workflow_id := "7";
                             activation_mode := "manual" |}
                        (VObj [("token", VStr "secret")])) initial)) = 3.
Proof.
  refine (proj1 (manual_cycles_accumulate 3 _ (VObj [("token", VStr "secret")])
                   initial _ _)); reflexivity.
Defined.

(** X10. An activation followed by a deactivation of a workflow reported
    inactive brings the counter back.  If no other activation was counted,
    the registry is then as at the start, the channel is torn down and no
    event is delivered any more.  If others were, the channel stays up and
    the node stays registered, its handlers still attached. *)
Theorem activate_then_deactivate (this : TriggerFunctions) (credentials : Value)
    (w : World)
    (Htoken : truthy (get_opt credentials "token") = true)
    (Hok : ConnectionManager.count_ok (manager w)) :
  let w' := lifecycle [Activate this credentials; Deactivate this credentials false] w in
  ConnectionManager.getConnectionCount (manager w')
  = ConnectionManager.getConnectionCount (manager w)
  /\ (ConnectionManager.getConnectionCount (manager w) = 0 ->
        manager w' = ConnectionManager.connectionManager
        /\ live_listeners w' = []
        /\ forall kind data, deliveries w' kind data = [])
  /\ (0 < ConnectionManager.getConnectionCount (manager w) ->
        ConnectionManager.isNodeRegistered (node_id this) (manager w') = true
        /\ filter is_teardown (trace w') = filter is_teardown (trace w)).
Proof.
  intros w'. subst w'. unfold lifecycle. cbn [fold_left].
  rewrite (activate_step this credentials w Htoken).
  unfold lifecycle_step.
  rewrite (deactivate_step this credentials false _ (token_has_credentials _ Htoken)).
  cbn [negb orb manager trace].
  unfold ConnectionManager.getConnectionCount, ConnectionManager.isNodeRegistered,
    ConnectionManager.count_ok in *.
  set (cm1 := {| ConnectionManager.connectionCount :=
                   ConnectionManager.connectionCount (manager w) + 1;
                 ConnectionManager.registeredNodes :=
                   ConnectionManager.add (node_id this)
                     (ConnectionManager.registeredNodes (manager w)) |}).
  destruct (disconnect_trichotomy (node_id this) cm1) as [[Hc Hd] | [[Hc Hd] | [Hc Hd]]];
    rewrite Hd; subst cm1; cbn [fst snd manager trace ConnectionManager.connectionCount
      ConnectionManager.registeredNodes] in *.
  - lia.
  - split; [lia |]. split; [| intros; lia]. intros _.
    split; [reflexivity |]. unfold live_listeners, deliveries. cbn [trace].
    rewrite !app_assoc, since_teardown_last. split; [reflexivity | reflexivity].
  - split; [lia |]. split; [intros; lia |]. intros _.
    split; [apply has_true_iff, add_In; now left |].
    rewrite app_nil_r, <- app_assoc. apply filter_quiet.
    rewrite existsb_app.
    now rewrite (proj1 (activation_calls_quiet this credentials _)).
Qed.

Lemma activate_then_deactivate_witness :
  manager (lifecycle [ Activate (client "node-1") (VObj [("token", VStr "secret")]);
                       Deactivate (client "node-1") (VObj [("token", VStr "secret")]) false ]
                     initial)
  = ConnectionManager.connectionManager.
Proof.
  assert (Htoken : truthy (get_opt (VObj [("token", VStr "secret")]) "token") = true)
    by reflexivity.
  assert (Hok : ConnectionManager.count_ok (manager initial)) by (vm_compute; discriminate).
  destruct (activate_then_deactivate (client "node-1") _ initial Htoken Hok)
    as [_ [Hzero _]].
  exact (proj1 (Hzero eq_refl)).
Defined.

(** ** The registration message *)

Lemma collected (this : TriggerFunctions) (names : list string) (acc : Object) (k : string) :
  lookup k (fold_left (fun parameters key =>
                         set_prop key (getNodeParameter this key (VStr "")) parameters)
                      names acc)
  = if existsb (String.eqb k) names
    then Some (getNodeParameter this k (VStr ""))
    else lookup k acc.
Proof.
  revert acc. induction names as [| name names IH]; intros acc; [reflexivity |].
  cbn [fold_left existsb]. rewrite IH, lookup_set_prop.
  destruct (existsb (String.eqb k) names); [now rewrite orb_true_r |].
  rewrite orb_false_r, (String.eqb_sym k name).
  destruct (String.eqb_spec name k) as [-> | Hne]; reflexivity.
Qed.

Lemma collected_NoDup (this : TriggerFunctions) (names : list string) (acc : Object) :
  NoDup (keys acc) ->
  NoDup (keys (fold_left (fun parameters key =>
                            set_prop key (getNodeParameter this key (VStr "")) parameters)
                         names acc)).
Proof.
  revert acc. induction names as [| name names IH]; intros acc Hnd; [exact Hnd |].
  cbn [fold_left]. now apply IH, NoDup_keys_set_prop.
Qed.

(** X17. The [parameters] object of the registration message holds, for
    each parameter name of the node and for no other name, the value
    [getNodeParameter] resolves for that name (with the empty string as the
    fallback), not the raw value of the node; each name is there once. *)
Theorem registration_parameters (this : TriggerFunctions) (credentials : Value) :
  get_opt (registration this credentials) "parameters" = VObj (collect_parameters this)
  /\ NoDup (keys (collect_parameters this))
  /\ (forall k, In k (keys (node_parameters this)) ->
        lookup k (collect_parameters this) = Some (getNodeParameter this k (VStr "")))
  /\ (forall k, ~ In k (keys (node_parameters this)) ->
        lookup k (collect_parameters this) = None).
Proof.
  split; [reflexivity |]. unfold collect_parameters.
  split; [apply collected_NoDup; constructor |].
  split; intros k Hk; rewrite collected.
  - assert (Hin : existsb (String.eqb k) (keys (node_parameters this)) = true).
    { apply existsb_exists. exists k. split; [exact Hk | apply String.eqb_refl]. }
    now rewrite Hin.
  - destruct (existsb (String.eqb k) (keys (node_parameters this))) eqn:Hin;
      [| reflexivity].
    apply existsb_exists in Hin. destruct Hin as [x [Hx Heq]].
    apply String.eqb_eq in Heq. subst x. contradiction.
Qed.

End LifecycleFacts.
